(** * Handwritten notes to digital notes: the transcription pipeline

    A shallow embedding of [main.py]: the per-page fan-out over a thread
    pool, the ordered fan-in, the joining of the page texts, the LaTeX
    wrapping, the character-frequency table and the download hints,
    followed by the properties the specification states about them.

    Python values are modelled as follows.
    - [str] is a list of Unicode code points ([N]); [lit] embeds an ASCII
      literal.
    - A [dict] is an association list in insertion order, as Python
      iterates it.
    - An exception is a value of [exn]; a call that may raise returns an
      [outcome].
    - A [Future] lives in the executor's store and is referred to by its
      position there, so the [tasks] dict and the worker threads share it. *)

From Stdlib Require Import String Ascii NArith.
From stdpp Require Import base list numbers sorting gmap strings.

Local Open Scope nat_scope.

(** ** Python primitives *)

Module Py.

Abbreviation char := N.
Abbreviation str := (list char).
Abbreviation bytes := (list Byte.byte).

(** An ASCII string literal as a [str]. *)
Definition lit (s : string) : str := map N_of_ascii (list_ascii_of_string s).

(** One ASCII character. *)
Definition chr (a : ascii) : char := N_of_ascii a.

(** The line feed, written backslash-n in the source. *)
Definition LF : char := 10%N.

(** [str.isalnum] on one character. The ASCII range is written out; the
    classification of the other code points comes from the Unicode
    character database, which is a table outside the program and is taken
    as the argument [unicode_isalnum]. *)
Definition isalnum (unicode_isalnum : char → bool) (c : char) : bool :=
  if (c <? 128)%N
  then ((48 <=? c) && (c <=? 57) || (65 <=? c) && (c <=? 90)
        || (97 <=? c) && (c <=? 122))%N
  else unicode_isalnum c.

(** [sep.join(items)]: the items are copied in order into the result and
    the separator is copied before every item but the first. *)
Definition join_step (sep : str) (acc : bool * str) (item : str) : bool * str :=
  (false, if acc.1 then acc.2 ++ item else acc.2 ++ sep ++ item).

Definition join (sep : str) (items : list str) : str :=
  (foldl (join_step sep) (true, []) items).2.

(** [enumerate(xs)] *)
Definition enumerate {A} (xs : list A) : list (nat * A) :=
  zip (seq 0 (length xs)) xs.

(** Exceptions. [IndexError] is the one the program itself can raise (by
    [image[0]]); the others come from the external collaborators. *)
Inductive exn : Type :=
| IndexError
| ServiceError (detail : string)
| ConversionError (detail : string).

Inductive outcome (A : Type) : Type :=
| Return (a : A)
| Raise (e : exn).
Global Arguments Return {A} a.
Global Arguments Raise {A} e.

Definition bind {A B} (m : outcome A) (k : A → outcome B) : outcome B :=
  match m with
  | Return a => k a
  | Raise e => Raise e
  end.

(** *** Dictionaries in insertion order *)
Abbreviation dict K V := (list (K * V)).

Section Dict.
Context {K V : Type} `{EqDecision K}.
Implicit Type d : dict K V.

(** [d.get(k, default)] *)
Fixpoint dict_get d (k : K) (default : V) : V :=
  match d with
  | [] => default
  | (k', v) :: d' => if decide (k = k') then v else dict_get d' k default
  end.

(** [d[k] = v]: an existing key keeps its place, a new key goes last. *)
Fixpoint dict_set d (k : K) (v : V) : dict K V :=
  match d with
  | [] => [(k, v)]
  | (k', v') :: d' =>
      if decide (k = k') then (k', v) :: d' else (k', v') :: dict_set d' k v
  end.

Definition keys d : list K := d.*1.
Definition values d : list V := d.*2.
Definition items d : list (K * V) := d.
End Dict.

End Py.
Import Py.

Global Instance outcome_ret : MRet outcome := @Return.
Global Instance outcome_bind : MBind outcome := λ A B k m, bind m k.

(** ** The program *)

(** What the program sends with a page: [{"mime_type": ..., "data": ...}]. *)
Record image_part := { mime_type : str; data : bytes }.

(** The fields of [st.session_state] the pipeline reads and writes.
    [latex_convert] is only ever initialised (to the empty string); the two
    buttons are booleans. *)
Record session_state := {
  plain_text_convert : bool;
  markdown_convert : bool;
  latex_convert : str;
  images : list bytes;
  output : str;
  format_selected : str
}.

Definition set_format_selected (v : str) (st : session_state) : session_state :=
  {| plain_text_convert := plain_text_convert st;
     markdown_convert := markdown_convert st;
     latex_convert := latex_convert st;
     images := images st;
     output := output st;
     format_selected := v |}.

Definition set_output (v : str) (st : session_state) : session_state :=
  {| plain_text_convert := plain_text_convert st;
     markdown_convert := markdown_convert st;
     latex_convert := latex_convert st;
     images := images st;
     output := v;
     format_selected := format_selected st |}.

(** Truth value of a [str] and of a list. *)
Definition truthy {A} (l : list A) : bool :=
  match l with [] => false | _ => true end.

(** The size handed to [ThreadPoolExecutor]. It bounds how many calls the
    pool runs at a time and has no part in what the calls return. *)
Definition max_workers : nat := 10.

(** The raw string [latex_preamble] of [md_to_latex], line by line; every
    line of the literal ends with a line feed. *)
Definition latex_preamble : str :=
  concat (map (λ line, lit line ++ [LF])
    [ "\documentclass[a4paper]{article}";
      "\usepackage[utf8]{inputenc}";
      "\usepackage{geometry}";
      "\geometry{margin=1in}";
      "\title{Digitalized Notes}";
      "\author{}";
      "\date{\today}";
      "\begin{document}";
      "\maketitle" ]%string).

(** The closing literal of [md_to_latex]; backslash-e is no escape
    sequence of Python, so the backslash stays. *)
Definition latex_end : str := lit "\end{document}".

Definition base_prompt : str :=
  lit "You have to transcribe the handwritten notes in the image. The output should be structured "
  ++ lit "with titles, chapters, paragraphs, and subparagraphs in the specified format.".

(** [get_custom_prompt(format)], an f-string. *)
Definition get_custom_prompt (format : str) : str :=
  base_prompt ++ lit " Format: " ++ format ++ lit ".".

(** ** The thread pool

    [ThreadPoolExecutor] is modelled by its store of futures. [submit]
    allocates a pending future holding the arguments of the call and hands
    back a reference to it; a worker that finishes a call writes the call's
    outcome into that future. Which worker finishes when is not decided by
    the program: it is given by a list of references, the futures whose
    calls finish, in that order. Leaving the [with] block waits for every
    future that is still pending. *)

Inductive Future : Type :=
| PENDING (input : str) (image : list image_part)
| FINISHED (r : outcome str).

Abbreviation Executor := (list Future).
Abbreviation future_ref := nat.

Section Pipeline.

(** The recognition service: [model.generate_content([input, part])]
    followed by [response.text]. *)
Variable generate_content : str → image_part → outcome str.

(** The markup transform: [pypandoc.convert_text(source, to, format=...)]. *)
Variable convert_text : str → str → str → outcome str.

(** The Unicode classification behind [str.isalnum] (see [Py.isalnum]). *)
Variable unicode_isalnum : char → bool.

(** [DataFrame.sort_values(by='Frequency', ascending=False)] on the rows
    of the frequency table. *)
Variable sort_values : list (char * nat) → list (char * nat).

Definition get_gemini_response (input : str) (image : list image_part)
  : outcome str :=
  match image with
  | [] => Raise IndexError
  | part :: _ => generate_content input part
  end.

Definition md_to_latex (md_content : str) : outcome str :=
  latex_body ← convert_text md_content (lit "latex") (lit "md");
  mret (latex_preamble ++ latex_body ++ latex_end).

(** [executor.submit(get_gemini_response, input, image)] *)
Definition submit (ex : Executor) (input : str) (image : list image_part)
  : Executor * future_ref :=
  (ex ++ [PENDING input image], length ex).

(** The call behind a future. *)
Definition run_call (f : Future) : Future :=
  match f with
  | PENDING input image => FINISHED (get_gemini_response input image)
  | FINISHED r => FINISHED r
  end.

(** A worker finishes the call of future [r]. *)
Definition worker_finish (ex : Executor) (r : future_ref) : Executor :=
  match ex !! r with
  | Some f => <[r := run_call f]> ex
  | None => ex
  end.

Definition workers_progress (finishing : list future_ref) (ex : Executor)
  : Executor :=
  foldl worker_finish ex finishing.

(** Leaving the [with] block: [shutdown(wait=True)]. *)
Definition shutdown (ex : Executor) : Executor := run_call <$> ex.

(** [task.result()]: the value of a finished call, or its exception
    raised again. [None] stands for a call that never returns: waiting on
    a future no worker finishes. *)
Definition result (ex : Executor) (task : future_ref) : option (outcome str) :=
  match ex !! task with
  | Some (FINISHED r) => Some r
  | _ => None
  end.

(** The loop of the [with] block, lines 66-70. [timing i] lists the calls
    that finish after page [i] was submitted and before the next
    statement of the main thread. *)
Definition submit_page (timing : nat → list future_ref) (st : session_state)
    (acc : Executor * dict nat future_ref) (page : nat * bytes)
  : Executor * dict nat future_ref :=
  let '(i, image_data) := page in
  let image_parts := [ {| mime_type := lit "image/png"; data := image_data |} ] in
  let '(ex, task) :=
    submit acc.1 (get_custom_prompt (format_selected st)) image_parts in
  (workers_progress (timing i) ex, dict_set acc.2 i task).

Definition submit_pages (timing : nat → list future_ref) (st : session_state)
  : Executor * dict nat future_ref :=
  foldl (submit_page timing st) ([], []) (enumerate (images st)).

(** The list comprehension of line 71,
    [[task.result() for task in tasks.values()]]: the first exception
    ends it. *)
Fixpoint results (ex : Executor) (tasks : list future_ref)
  : option (outcome (list str)) :=
  match tasks with
  | [] => Some (Return [])
  | task :: rest =>
      match result ex task with
      | None => None
      | Some (Raise e) => Some (Raise e)
      | Some (Return text) =>
          match results ex rest with
          | None => None
          | Some (Raise e) => Some (Raise e)
          | Some (Return texts) => Some (Return (text :: texts))
          end
      end
  end.

(** Lines 64-71 up to the join: every page submitted, the pool shut
    down, the results read in the order of [tasks]. [final] lists the
    calls that finish between the last submission and the shutdown. *)
Definition dispatch (timing : nat → list future_ref) (final : list future_ref)
    (st : session_state) : option (outcome (list str)) :=
  let '(ex, tasks) := submit_pages timing st in
  let ex := shutdown (workers_progress final ex) in
  results ex (values tasks).

(** The separator of line 71. *)
Definition blank_line : str := [LF; LF].

(** What line 71 does with the page texts. *)
Definition aggregate (texts : list str) : str := join blank_line texts.

Definition select_format (st : session_state) : str :=
  if plain_text_convert st then lit "Plain Text"
  else if markdown_convert st then lit "Markdown"
  else lit "LaTeX".

(** Lines 73-74 on the text stored by line 71. *)
Definition convert (st : session_state) : session_state * outcome () :=
  if decide (format_selected st = lit "LaTeX")
  then match md_to_latex (output st) with
       | Return latex => (set_output latex st, Return ())
       | Raise e => (st, Raise e)
       end
  else (st, Return ()).

(** [process_file()]. The session state is returned in either case: what
    was assigned before an exception stays assigned. *)
Definition process_file (timing : nat → list future_ref)
    (final : list future_ref) (st : session_state)
  : option (session_state * outcome ()) :=
  let st := set_format_selected (select_format st) st in
  match dispatch timing final st with
  | None => None
  | Some (Raise e) => Some (st, Raise e)
  | Some (Return texts) => Some (convert (set_output (aggregate texts) st))
  end.

(** [generate_character_frequency(text)] *)
Definition count_char (frequency : dict char nat) (ch : char)
  : dict char nat :=
  if isalnum unicode_isalnum ch
  then dict_set frequency ch (dict_get frequency ch 0 + 1)
  else frequency.

Definition generate_character_frequency (text : str) : list (char * nat) :=
  let frequency := foldl count_char [] text in
  sort_values (items frequency).

(** The arguments of [st.download_button], lines 225 and 226. *)
Definition file_name (st : session_state) : str :=
  if decide (format_selected st = lit "Plain Text") then lit "converted_notes.txt"
  else if decide (format_selected st = lit "Markdown") then lit "converted_notes.md"
  else lit "converted_notes.tex".

Definition mime (st : session_state) : str :=
  if decide (format_selected st = lit "Plain Text") then lit "text/plain"
  else if decide (format_selected st = lit "Markdown") then lit "text/markdown"
  else lit "application/x-tex".

(** What one run of the script puts on the page from line 206 on. *)
Record page := {
  text_area : str;
  frequency_chart : option (list (char * nat));
  download_data : str;
  download_file_name : str;
  download_mime : str
}.

(** Lines 206-227. An exception of [process_file] ends the script run:
    nothing below line 207 is executed. *)
Definition script (timing : nat → list future_ref) (final : list future_ref)
    (st : session_state) : option (session_state * outcome page) :=
  let processed :=
    if (plain_text_convert st || markdown_convert st || truthy (latex_convert st))
       && truthy (images st)
    then process_file timing final st
    else Some (st, Return ()) in
  match processed with
  | None => None
  | Some (st, Raise e) => Some (st, Raise e)
  | Some (st, Return _) =>
      let chart :=
        if truthy (output st)
        then Some (generate_character_frequency (output st))
        else None in
      Some (st, Return {| text_area := output st;
                          frequency_chart := chart;
                          download_data := output st;
                          download_file_name := file_name st;
                          download_mime := mime st |})
  end.

End Pipeline.

(** ** Vocabulary of the statements *)

Section Vocabulary.

Variable generate_content : str → image_part → outcome str.

(** The part list the program builds for a page image. *)
Definition image_parts (image_data : bytes) : list image_part :=
  [ {| mime_type := lit "image/png"; data := image_data |} ].

(** The outcome of the Transcriber call of one page. *)
Definition transcription (st : session_state) (image_data : bytes)
  : outcome str :=
  get_gemini_response generate_content
    (get_custom_prompt (format_selected st)) (image_parts image_data).

(** A list of per-page outcomes read in page order: the first exception,
    or all the texts. *)
Fixpoint first_error_or_all (rs : list (outcome str)) : outcome (list str) :=
  match rs with
  | [] => Return []
  | Return text :: rs' =>
      match first_error_or_all rs' with
      | Return texts => Return (text :: texts)
      | Raise e => Raise e
      end
  | Raise e :: _ => Raise e
  end.

(** A future of the pool belongs to a page: it is the pending call for
    that page or holds the outcome of that call. *)
Definition future_for (st : session_state) (image_data : bytes) (f : Future)
  : Prop :=
  f = PENDING (get_custom_prompt (format_selected st)) (image_parts image_data)
  ∨ f = FINISHED (transcription st image_data).

(** A conversion was asked for and there are pages: the guard of line 206. *)
Definition requested (st : session_state) : bool :=
  (plain_text_convert st || markdown_convert st || truthy (latex_convert st))
  && truthy (images st).

End Vocabulary.

(** Number of occurrences of a character in a text. *)
Definition occurrences (c : char) (text : str) : nat :=
  length (filter (λ x, x = c) text).

(** Position of the first occurrence of a character ([length text] when it
    does not occur). *)
Fixpoint first_occurrence (c : char) (text : str) : nat :=
  match text with
  | [] => 0
  | x :: text' => if decide (x = c) then 0 else S (first_occurrence c text')
  end.

(** Rows in descending order of their count. *)
Definition by_count_desc (r1 r2 : char * nat) : Prop := r2.2 ≤ r1.2.

Global Instance by_count_desc_dec : RelDecision by_count_desc.
Proof. intros r1 r2. unfold by_count_desc. apply _. Defined.

(** Rows of equal count stand in the order in which their characters first
    occur in the text. *)
Definition ties_by_first_occurrence (text : str) (table : list (char * nat))
  : Prop :=
  ∀ i j r1 r2,
    table !! i = Some r1 → table !! j = Some r2 → i < j → r1.2 = r2.2 →
    first_occurrence r1.1 text < first_occurrence r2.1 text.

(** What the documentation of [sort_values] promises for the default
    [kind='quicksort']: the rows come back rearranged and in descending
    order of the key; the order among equal keys is left open. *)
Definition sorts_descending (sort_values : list (char * nat) → list (char * nat))
  : Prop :=
  ∀ rows, sort_values rows ≡ₚ rows ∧ Sorted by_count_desc (sort_values rows).

(** A sort that keeps rows of equal count in the order it found them, as
    [kind='stable'] does. *)
Definition keeps_ties (sort_values : list (char * nat) → list (char * nat))
  : Prop :=
  ∀ rows n,
    filter (λ r, r.2 = n) (sort_values rows) = filter (λ r, r.2 = n) rows.

(** [x] stands before [y] in [l]. *)
Definition before {A} (x y : A) (l : list A) : Prop :=
  ∃ l1 l2 l3, l = l1 ++ x :: l2 ++ y :: l3.

(** [needle] occurs in [hay]. *)
Fixpoint starts_with (needle hay : str) : bool :=
  match needle, hay with
  | [], _ => true
  | _ :: _, [] => false
  | x :: needle', y :: hay' => bool_decide (x = y) && starts_with needle' hay'
  end.

Fixpoint contains (needle hay : str) : bool :=
  starts_with needle hay ||
  match hay with
  | [] => false
  | _ :: hay' => contains needle hay'
  end.

(** ** Sample collaborators and sessions

    Concrete stand-ins for the external collaborators, and sessions to run
    the pipeline on. *)

(** A recognition service that answers with the first byte of the page
    image and rejects an empty image. *)
Definition sample_service (input : str) (part : image_part) : outcome str :=
  match data part with
  | [] => Raise (ServiceError "empty image")
  | b :: _ => Return (lit "page " ++ [Byte.to_N b])
  end.

(** A markup transform that turns a leading [# ] into a section heading. *)
Definition sample_pandoc (source to format : str) : outcome str :=
  if starts_with (lit "# ") source
  then Return (lit "\section{" ++ drop 2 source ++ lit "}")
  else Return source.

(** Merge sort by descending count: a sort that meets the contract
    [sorts_descending], used where a sort is needed to run the definitions.
    It stands for no kind of [sort_values] in particular. *)
Definition sample_sort : list (char * nat) → list (char * nat) :=
  merge_sort by_count_desc.

(** Insertion sort by descending count: a row goes behind the rows of
    greater count and before the rows of equal or smaller count. *)
Fixpoint insert_desc (r : char * nat) (rows : list (char * nat))
  : list (char * nat) :=
  match rows with
  | [] => [r]
  | r' :: rows' =>
      if decide (r.2 < r'.2) then r' :: insert_desc r rows'
      else r :: r' :: rows'
  end.

Definition stable_sort (rows : list (char * nat)) : list (char * nat) :=
  foldr insert_desc [] rows.

(** Three pages, the Markdown button pressed, an earlier output stored. *)
Definition three_pages : session_state :=
  {| plain_text_convert := false;
     markdown_convert := true;
     latex_convert := [];
     images := [[Byte.x30]; [Byte.x31]; [Byte.x32]];
     output := lit "earlier output";
     format_selected := lit "Plain Text" |}.

(** The same session with an image for page 1 that the service rejects. *)
Definition page_1_rejected : session_state :=
  {| plain_text_convert := false;
     markdown_convert := true;
     latex_convert := [];
     images := [[Byte.x30]; []; [Byte.x32]];
     output := lit "earlier output";
     format_selected := lit "Plain Text" |}.

(** A session whose stored text is a heading and whose format is LaTeX. *)
Definition latex_session : session_state :=
  {| plain_text_convert := false;
     markdown_convert := false;
     latex_convert := [];
     images := [[Byte.x30]];
     output := lit "# Title";
     format_selected := lit "LaTeX" |}.

(** No call finishes before the pool is shut down; then page 2 finishes
    first, page 0 next and page 1 last. *)
Definition none_early : nat → list future_ref := λ _, [].
Definition finish_2_0_1 : list future_ref := [2; 0; 1].

(** ** The rest of the script

    The session store and its initialisation, the rasterizer and the part
    of the script that runs before [process_file]. *)

(** A value kept in [st.session_state]. *)
Inductive value : Type :=
| VNone
| VBool (b : bool)
| VStr (s : str)
| VImages (imgs : list bytes)
| VFile (contents : bytes).

(** The list of keys of [initialize_session_state]. *)
Definition session_keys : list string :=
  [ "uploaded_file"; "plain_text_convert"; "markdown_convert"; "latex_convert";
    "images"; "output"; "format_selected" ]%string.

(** The value a missing key gets, lines 88-95. *)
Definition initial_value (key : string) : value :=
  if decide (key = "uploaded_file"%string) then VNone
  else if decide (key = "images"%string) then VImages []
  else if decide (key = "format_selected"%string) then VStr []
  else VStr [].

(** One round of the loop of lines 86-95. *)
Definition initialize_key (ss : gmap string value) (key : string)
  : gmap string value :=
  match ss !! key with
  | Some _ => ss
  | None => <[key := initial_value key]> ss
  end.

(** [initialize_session_state()] *)
Definition initialize_session_state (ss : gmap string value)
  : gmap string value :=
  foldl initialize_key ss session_keys.

(** Truth value of a stored value. *)
Definition value_truthy (v : value) : bool :=
  match v with
  | VNone => false
  | VBool b => b
  | VStr s => truthy s
  | VImages imgs => truthy imgs
  | VFile _ => true
  end.

(** The fields of the store the pipeline works on, read as the record
    [session_state]; the two buttons are read for their truth value, the
    only way the script uses them. *)
Definition session_view (ss : gmap string value) : option session_state :=
  match ss !! "plain_text_convert"%string, ss !! "markdown_convert"%string,
        ss !! "latex_convert"%string, ss !! "images"%string,
        ss !! "output"%string, ss !! "format_selected"%string with
  | Some plain, Some markdown, Some (VStr latex), Some (VImages imgs),
    Some (VStr out), Some (VStr format) =>
      Some {| plain_text_convert := value_truthy plain;
              markdown_convert := value_truthy markdown;
              latex_convert := latex;
              images := imgs;
              output := out;
              format_selected := format |}
  | _, _, _, _, _, _ => None
  end.

(** The session a first run of the script starts from. *)
Definition fresh_session : session_state :=
  {| plain_text_convert := false;
     markdown_convert := false;
     latex_convert := [];
     images := [];
     output := [];
     format_selected := [] |}.

Definition set_buttons (plain markdown : bool) (st : session_state)
  : session_state :=
  {| plain_text_convert := plain;
     markdown_convert := markdown;
     latex_convert := latex_convert st;
     images := images st;
     output := output st;
     format_selected := format_selected st |}.

Definition set_images (v : list bytes) (st : session_state) : session_state :=
  {| plain_text_convert := plain_text_convert st;
     markdown_convert := markdown_convert st;
     latex_convert := latex_convert st;
     images := v;
     output := output st;
     format_selected := format_selected st |}.

Section Application.

(** The pages of an opened document. *)
Variable pdf_page : Type.

(** [fitz.open(stream=..., filetype="pdf")] on the bytes of the upload. *)
Variable fitz_open : bytes → outcome (list pdf_page).

(** [page.get_pixmap()] followed by [pix.tobytes("png")]. *)
Variable render_png : pdf_page → outcome bytes.

Variable generate_content : str → image_part → outcome str.
Variable convert_text : str → str → str → outcome str.
Variable unicode_isalnum : char → bool.
Variable sort_values : list (char * nat) → list (char * nat).

(** [doc.load_page(page_num)]: a page number outside the document is an
    error of the library. *)
Definition load_page (doc : list pdf_page) (page_num : nat) : outcome pdf_page :=
  match doc !! page_num with
  | Some page => Return page
  | None => Raise (ServiceError "page not in document")
  end.

(** One round of the loop of lines 31-34; an exception ends the loop. *)
Definition render_page (doc : list pdf_page) (acc : outcome (list bytes))
    (page_num : nat) : outcome (list bytes) :=
  images ← acc;
  page ← load_page doc page_num;
  png ← render_png page;
  mret (images ++ [png]).

(** [pdf_to_images(pdf_file)] *)
Definition pdf_to_images (pdf_file : bytes) : outcome (list bytes) :=
  doc ← fitz_open pdf_file;
  foldl (render_page doc) (Return []) (seq 0 (length doc)).

(** Lines 189-199: the buttons are read, and the images are replaced when a
    file is uploaded. *)
Definition upload (uploaded_file : option bytes) (plain markdown : bool)
    (st : session_state) : session_state * outcome () :=
  let st := set_buttons plain markdown st in
  match uploaded_file with
  | Some pdf_file =>
      match pdf_to_images pdf_file with
      | Return imgs => (set_images imgs st, Return ())
      | Raise e => (st, Raise e)
      end
  | None => (st, Return ())
  end.

(** One run of the script from line 186 on. *)
Definition app (uploaded_file : option bytes) (plain markdown : bool)
    (timing : nat → list future_ref) (final : list future_ref)
    (st : session_state) : option (session_state * outcome page) :=
  match upload uploaded_file plain markdown st with
  | (st, Raise e) => Some (st, Raise e)
  | (st, Return _) =>
      script generate_content convert_text unicode_isalnum sort_values
        timing final st
  end.

End Application.

Arguments load_page {pdf_page} doc page_num.
Arguments render_page {pdf_page} render_png doc acc page_num.
Arguments pdf_to_images {pdf_page} fitz_open render_png pdf_file.
Arguments upload {pdf_page} fitz_open render_png uploaded_file plain markdown st.
Arguments app {pdf_page} fitz_open render_png generate_content convert_text
  unicode_isalnum sort_values uploaded_file plain markdown timing final st.

(** A rasterizer for the sample runs: the document is the list of its
    bytes, one page each; an empty upload is no document and the zero byte
    is a page that cannot be rendered. *)
Definition sample_open (pdf_file : bytes) : outcome (list Byte.byte) :=
  match pdf_file with
  | [] => Raise (ServiceError "cannot open empty document")
  | _ => Return pdf_file
  end.

Definition sample_render (page : Byte.byte) : outcome bytes :=
  if Byte.eqb page Byte.x00 then Raise (ServiceError "cannot render page")
  else Return [page].

(** ** Joining *)

Lemma foldl_join_step sep acc items :
  foldl (join_step sep) (false, acc) items
  = (false, acc ++ concat (map (λ item, sep ++ item) items)).
Proof.
  revert acc. induction items as [|item items IH]; intros acc; simpl.
  - by rewrite app_nil_r.
  - unfold join_step at 2. simpl. rewrite IH. by rewrite <- !app_assoc.
Qed.

Lemma join_cons sep item items :
  join sep (item :: items) = item ++ concat (map (λ x, sep ++ x) items).
Proof. unfold join. simpl. unfold join_step at 2. simpl. by rewrite foldl_join_step. Qed.

(** ** Dictionaries *)

Section DictFacts.
Context {K V : Type} `{EqDecision K}.
Implicit Types (d : dict K V) (k : K) (v : V).

Lemma keys_dict_set d k v :
  keys (dict_set d k v) = if decide (k ∈ keys d) then keys d else keys d ++ [k].
Proof.
  unfold keys. induction d as [|[k' v'] d IH]; csimpl; [done|].
  destruct (decide (k = k')) as [->|Hne]; csimpl.
  - rewrite decide_True; [done | left].
  - rewrite IH. destruct (decide (k ∈ d.*1)) as [Hin|Hnin].
    + rewrite decide_True; [done | by right].
    + rewrite decide_False; [done | ]. rewrite elem_of_cons. tauto.
Qed.

Lemma dict_set_fresh d k v : k ∉ keys d → dict_set d k v = d ++ [(k, v)].
Proof.
  unfold keys. induction d as [|[k' v'] d IH]; csimpl; [done|].
  rewrite not_elem_of_cons. intros [Hne Hnin].
  rewrite decide_False; [|done]. by rewrite IH.
Qed.

Lemma dict_get_set d k k' v default :
  dict_get (dict_set d k v) k' default
  = if decide (k' = k) then v else dict_get d k' default.
Proof.
  induction d as [|[k0 v0] d IH]; simpl.
  - destruct (decide (k' = k)); done.
  - destruct (decide (k = k0)) as [->|Hne]; simpl.
    + destruct (decide (k' = k0)); done.
    + rewrite IH. destruct (decide (k' = k0)) as [->|]; [|done].
      rewrite decide_False; [done | congruence].
Qed.

Lemma NoDup_keys_dict_set d k v : NoDup (keys d) → NoDup (keys (dict_set d k v)).
Proof.
  intros Hd. rewrite keys_dict_set. case_decide; [done|].
  apply NoDup_app. split_and!; [done | | apply NoDup_singleton].
  intros x Hx. rewrite list_elem_of_singleton. by intros ->.
Qed.

Lemma dict_get_not_key d k default : k ∉ keys d → dict_get d k default = default.
Proof.
  unfold keys. induction d as [|[k' v'] d IH]; csimpl; [done|].
  rewrite not_elem_of_cons. intros [Hne Hnin]. rewrite decide_False; auto.
Qed.

Lemma elem_of_dict d k v default :
  NoDup (keys d) → (k, v) ∈ d ↔ k ∈ keys d ∧ dict_get d k default = v.
Proof.
  unfold keys. induction d as [|[k' v'] d IH]; csimpl; intros Hd.
  - rewrite !elem_of_nil. tauto.
  - apply NoDup_cons in Hd as [Hk' Hd]. rewrite !elem_of_cons, (IH Hd).
    destruct (decide (k = k')) as [->|Hne]; intuition congruence.
Qed.
End DictFacts.

(** ** The pool and the futures of the pages *)

Section PoolFacts.

Variable generate_content : str → image_part → outcome str.
Variable st : session_state.

Local Abbreviation future_for := (future_for generate_content st).
Local Abbreviation transcription := (transcription generate_content st).
Local Abbreviation run_call := (run_call generate_content).

Lemma run_call_future_for image_data f :
  future_for image_data f → future_for image_data (run_call f).
Proof. intros [-> | ->]; right; reflexivity. Qed.

Lemma run_call_finished image_data f :
  future_for image_data f → run_call f = FINISHED (transcription image_data).
Proof. by intros [-> | ->]. Qed.

(** A worker that finishes a call leaves every future with its page. *)
Lemma worker_finish_future_for pages ex r :
  Forall2 future_for pages ex →
  Forall2 future_for pages (worker_finish generate_content ex r).
Proof.
  intros Hinv. unfold worker_finish.
  destruct (ex !! r) as [f|] eqn:Hf; [|done].
  destruct (Forall2_lookup_r _ _ _ _ _ Hinv Hf) as (image_data & Himg & Hfor).
  rewrite <- (list_insert_id pages r image_data Himg).
  apply Forall2_insert; [done|]. by apply run_call_future_for.
Qed.

Lemma workers_progress_future_for pages finishing ex :
  Forall2 future_for pages ex →
  Forall2 future_for pages (workers_progress generate_content finishing ex).
Proof.
  unfold workers_progress. revert ex.
  induction finishing as [|r finishing IH]; intros ex Hinv; simpl; [done|].
  by apply IH, worker_finish_future_for.
Qed.

(** After the shutdown every future holds the outcome of its page. *)
Lemma shutdown_finished pages ex :
  Forall2 future_for pages ex →
  shutdown generate_content ex = FINISHED <$> (transcription <$> pages).
Proof.
  unfold shutdown. induction 1 as [|image_data f pages ex Hf _ IH]; csimpl; [done|].
  by rewrite IH, (run_call_finished image_data).
Qed.

Lemma submit_page_eq timing ex tasks i image_data :
  submit_page generate_content timing st (ex, tasks) (i, image_data)
  = (workers_progress generate_content (timing i)
       (ex ++ [PENDING (get_custom_prompt (format_selected st))
                       (image_parts image_data)]),
     dict_set tasks i (length ex)).
Proof. reflexivity. Qed.

(** The loop over the pages, started in the middle: the pages [done] are
    submitted already. *)
Lemma submit_pages_from timing done todo ex :
  Forall2 future_for done ex →
  ∃ ex',
    foldl (submit_page generate_content timing st)
      (ex, zip (seq 0 (length done)) (seq 0 (length done)))
      (zip (seq (length done) (length todo)) todo)
    = (ex', zip (seq 0 (length (done ++ todo))) (seq 0 (length (done ++ todo))))
    ∧ Forall2 future_for (done ++ todo) ex'.
Proof.
  revert done ex. induction todo as [|image_data todo IH]; intros done ex Hinv.
  - simpl. rewrite app_nil_r. eauto.
  - cbn [length seq zip_with foldl]. rewrite submit_page_eq.
    pose proof (Forall2_length _ _ _ Hinv) as Hlen.
    assert (Hnext : Forall2 future_for (done ++ [image_data])
              (workers_progress generate_content (timing (length done))
                 (ex ++ [PENDING (get_custom_prompt (format_selected st))
                                 (image_parts image_data)]))).
    { apply workers_progress_future_for, Forall2_app; [done|].
      constructor; [by left | constructor]. }
    destruct (IH _ _ Hnext) as (ex' & Heq & Hinv').
    exists ex'. rewrite <- (assoc_L (++)) in Heq, Hinv'.
    change ([image_data] ++ todo) with (image_data :: todo) in Heq, Hinv'.
    split; [|done].
    rewrite <- Heq, length_app. cbn [length]. rewrite Nat.add_1_r.
    do 2 f_equal.
    rewrite dict_set_fresh.
    + by rewrite <- Hlen, seq_S, zip_with_app by (by rewrite !length_seq).
    + unfold keys. rewrite fst_zip by done. rewrite elem_of_seq. lia.
Qed.

Lemma submit_pages_spec timing :
  ∃ ex,
    submit_pages generate_content timing st
    = (ex, zip (seq 0 (length (images st))) (seq 0 (length (images st))))
    ∧ Forall2 future_for (images st) ex.
Proof.
  destruct (submit_pages_from timing [] (images st) []) as (ex & Heq & Hinv);
    [constructor|].
  exists ex. split; [|done]. unfold submit_pages, enumerate. exact Heq.
Qed.

(** Reading finished futures in the order of their references. *)
Lemma results_finished earlier rs :
  results (FINISHED <$> (earlier ++ rs)) (seq (length earlier) (length rs))
  = Some (first_error_or_all rs).
Proof.
  revert earlier. induction rs as [|r rs IH]; intros earlier; [done|].
  simpl. unfold result.
  rewrite list_lookup_fmap, lookup_app_r, Nat.sub_diag by done. simpl.
  destruct r as [text|e]; [|done].
  specialize (IH (earlier ++ [Return text])).
  rewrite <- (assoc_L (++)), length_app, Nat.add_1_r in IH. simpl in IH.
  rewrite IH. by destruct (first_error_or_all rs).
Qed.

(** The results of a dispatch are the outcomes of the pages read in page
    order, whatever the order in which the calls finished. *)
Lemma dispatch_spec timing final :
  dispatch generate_content timing final st
  = Some (first_error_or_all (transcription <$> images st)).
Proof.
  unfold dispatch.
  destruct (submit_pages_spec timing) as (ex & -> & Hinv).
  rewrite (shutdown_finished (images st))
    by by apply workers_progress_future_for.
  unfold values. rewrite snd_zip by done.
  pose proof (results_finished [] (transcription <$> images st)) as Hres.
  simpl in Hres. by rewrite length_fmap in Hres.
Qed.

End PoolFacts.

(** ** Counting characters *)

Lemma occurrences_cons c x text :
  occurrences c (x :: text)
  = (if decide (x = c) then 1 else 0) + occurrences c text.
Proof.
  unfold occurrences. rewrite filter_cons.
  destruct (decide (x = c)); reflexivity.
Qed.

Lemma occurrences_pos c text : c ∈ text → 0 < occurrences c text.
Proof.
  induction 1 as [c text | c x text _ IH]; rewrite occurrences_cons.
  - rewrite decide_True by done. lia.
  - lia.
Qed.

Section DictCounts.
Context {K : Type} `{EqDecision K}.
Implicit Types (d : dict K nat) (k : K).

Lemma sum_values_increment d k :
  sum_list (values (dict_set d k (dict_get d k 0 + 1)))
  = sum_list (values d) + 1.
Proof.
  unfold values. induction d as [|[k' n] d IH]; csimpl; [done|].
  destruct (decide (k = k')) as [->|Hne]; csimpl; [lia|].
  rewrite IH. lia.
Qed.

Lemma Forall_dict_set (P : K * nat → Prop) d k n :
  Forall P d → (∀ k', P (k', n)) → Forall P (dict_set d k n).
Proof.
  intros Hd Hn. induction Hd as [|[k' n'] d Hx Hd IH]; simpl.
  - by constructor.
  - destruct (decide (k = k')); constructor; auto.
Qed.
End DictCounts.

Section FrequencyFacts.

Variable unicode_isalnum : char → bool.

Local Abbreviation isalnum := (Py.isalnum unicode_isalnum).
Local Abbreviation count := (count_char unicode_isalnum).

(** The dictionary built by the loop of lines 78-80, started from [d]. *)
Lemma count_get d text c :
  dict_get (foldl count d text) c 0
  = dict_get d c 0 + (if isalnum c then occurrences c text else 0).
Proof.
  revert d. induction text as [|x text IH]; intros d.
  - simpl. unfold occurrences. simpl. destruct (isalnum c); lia.
  - cbn [foldl]. rewrite IH, occurrences_cons. unfold count_char.
    destruct (isalnum x) eqn:Hx.
    + rewrite dict_get_set. destruct (decide (c = x)) as [->|Hne].
      * rewrite Hx, decide_True by done. lia.
      * rewrite decide_False by congruence. destruct (isalnum c); lia.
    + destruct (decide (x = c)) as [->|Hne]; [by rewrite Hx; lia|].
      destruct (isalnum c); lia.
Qed.

Lemma count_keys_NoDup d text :
  NoDup (keys d) → NoDup (keys (foldl count d text)).
Proof.
  revert d. induction text as [|x text IH]; intros d Hd; [done|].
  cbn [foldl]. apply IH. unfold count_char.
  destruct (isalnum x); [by apply NoDup_keys_dict_set | done].
Qed.

Lemma count_keys d text c :
  c ∈ keys (foldl count d text)
  ↔ c ∈ keys d ∨ (c ∈ text ∧ isalnum c = true).
Proof.
  revert d. induction text as [|x text IH]; intros d.
  - simpl. rewrite elem_of_nil. tauto.
  - cbn [foldl]. rewrite IH, elem_of_cons. unfold count_char.
    destruct (isalnum x) eqn:Hx.
    + rewrite keys_dict_set. case_decide as Hin.
      * split; [tauto|]. intros [?|[[->|?] ?]]; auto.
      * rewrite elem_of_app, list_elem_of_singleton.
        split; [intros [[?| ->]|[? ?]]; auto|].
        intros [?|[[->|?] ?]]; auto.
    + split; [tauto|]. intros [?|[[->|?] Hc]]; auto. congruence.
Qed.

Lemma count_positive d text :
  Forall (λ r, 0 < r.2) d → Forall (λ r, 0 < r.2) (foldl count d text).
Proof.
  revert d. induction text as [|x text IH]; intros d Hd; [done|].
  cbn [foldl]. apply IH. unfold count_char.
  destruct (isalnum x); [|done].
  apply Forall_dict_set; [done|]. intros k'. simpl. lia.
Qed.

Lemma count_sum d text :
  sum_list (values (foldl count d text))
  = sum_list (values d) + length (filter (λ c, isalnum c = true) text).
Proof.
  revert d. induction text as [|x text IH]; intros d.
  - simpl. lia.
  - cbn [foldl]. rewrite IH, filter_cons. unfold count_char.
    destruct (isalnum x) eqn:Hx.
    + rewrite sum_values_increment, decide_True by done. simpl. lia.
    + rewrite decide_False by congruence. done.
Qed.

(** The rows before sorting: one row for each alphanumeric character of
    the text, with the number of its occurrences. *)
Lemma frequency_rows text c n :
  (c, n) ∈ foldl count [] text
  ↔ isalnum c = true ∧ c ∈ text ∧ n = occurrences c text.
Proof.
  rewrite (elem_of_dict _ _ _ 0) by (apply count_keys_NoDup; constructor).
  rewrite count_keys, count_get, elem_of_nil. simpl.
  split.
  - intros [[[]|[Hin Hc]] Hn]. rewrite Hc in Hn. auto.
  - intros (Hc & Hin & ->). rewrite Hc. auto.
Qed.

End FrequencyFacts.

(** ** Reading outcomes in page order *)

Lemma first_error_or_all_fmap (texts : list str) :
  first_error_or_all (Return <$> texts) = Return texts.
Proof. induction texts as [|text texts IH]; csimpl; [done|]. by rewrite IH. Qed.

Lemma first_error_or_all_success (rs : list (outcome str)) (texts : list str) :
  first_error_or_all rs = Return texts ↔ rs = Return <$> texts.
Proof.
  split; [|intros ->; apply first_error_or_all_fmap].
  revert texts. induction rs as [|[text|e] rs IH]; intros texts; simpl.
  - by intros [= <-].
  - destruct (first_error_or_all rs) as [texts'|e']; [|done].
    intros [= <-]. csimpl. by rewrite <- (IH texts').
  - done.
Qed.

Lemma first_error_or_all_failure (rs : list (outcome str)) :
  (∃ e, Raise e ∈ rs) →
  ∃ i e,
    rs !! i = Some (Raise e)
    ∧ (∀ j r, j < i → rs !! j = Some r → ∃ text, r = Return text)
    ∧ first_error_or_all rs = Raise e.
Proof.
  induction rs as [|[text|e] rs IH]; intros [e0 Hin].
  - by apply elem_of_nil in Hin.
  - apply elem_of_cons in Hin as [?|Hin]; [done|].
    destruct IH as (i & e & Hi & Hbefore & Hres); [by eauto|].
    exists (S i), e. simpl. rewrite Hres. split_and!; [done| |done].
    intros [|j] r Hj Hr; simpl in Hr; [by inversion Hr; eauto|].
    apply (Hbefore j); [lia|done].
  - exists 0, e. split_and!; [done| |done]. intros j r Hj. lia.
Qed.

(** ** The dispatcher *)

(** C1. Whatever the order in which the Transcriber calls finish, the
    dispatch of a run in which every page is transcribed returns the page
    texts in page order: result [i] is the transcription of page [i]. *)
Theorem dispatch_returns_page_order
    (generate_content : str → image_part → outcome str)
    (timing : nat → list future_ref) (final : list future_ref)
    (st : session_state) (texts : list str) :
  Forall2 (λ image_data text,
             transcription generate_content st image_data = Return text)
          (images st) texts →
  dispatch generate_content timing final st = Some (Return texts)
  ∧ ∀ timing' final',
      dispatch generate_content timing' final' st
      = dispatch generate_content timing final st.
Proof.
  intros Hpages. split; [|intros; by rewrite !dispatch_spec].
  rewrite dispatch_spec. do 2 f_equal.
  apply first_error_or_all_success.
  induction Hpages as [|image_data text pages texts Hpage _ IH]; csimpl; [done|].
  by rewrite Hpage, IH.
Qed.

Lemma dispatch_returns_page_order_witness :
  dispatch sample_service none_early finish_2_0_1 three_pages
  = Some (Return [lit "page 0"; lit "page 1"; lit "page 2"]).
Proof.
  apply (dispatch_returns_page_order sample_service none_early finish_2_0_1
           three_pages [lit "page 0"; lit "page 1"; lit "page 2"]).
  repeat constructor.
Defined.

(** C2. When the transcription of some page fails, the dispatch fails
    with the error of the first failing page in page order;
    [process_file] ends with that error and leaves the stored output as it
    was, so neither the joined text nor a converted text is stored, and the
    script run ends there, before the frequency table is computed. *)
Theorem process_file_fails_fast
    (generate_content : str → image_part → outcome str)
    (convert_text : str → str → str → outcome str)
    (unicode_isalnum : char → bool)
    (sort_values : list (char * nat) → list (char * nat))
    (timing : nat → list future_ref) (final : list future_ref)
    (st : session_state) :
  let st' := set_format_selected (select_format st) st in
  (∃ image_data e,
     image_data ∈ images st
     ∧ transcription generate_content st' image_data = Raise e) →
  ∃ i image_data e,
    images st !! i = Some image_data
    ∧ transcription generate_content st' image_data = Raise e
    ∧ (∀ j image_data', j < i → images st !! j = Some image_data' →
         ∃ text, transcription generate_content st' image_data' = Return text)
    ∧ dispatch generate_content timing final st' = Some (Raise e)
    ∧ process_file generate_content convert_text timing final st
      = Some (st', Raise e)
    ∧ output st' = output st
    ∧ (plain_text_convert st || markdown_convert st
         || truthy (latex_convert st) = true →
       script generate_content convert_text unicode_isalnum sort_values
         timing final st
       = Some (st', Raise e)).
Proof.
  intros st' (image_data0 & e0 & Hin & Hfail).
  destruct (first_error_or_all_failure
              (transcription generate_content st' <$> images st))
    as (i & e & Hi & Hbefore & Hres).
  { exists e0. rewrite <- Hfail. by apply list_elem_of_fmap_2. }
  apply list_lookup_fmap_Some in Hi as (image_data & Hpage & He).
  assert (Hdispatch : dispatch generate_content timing final st' = Some (Raise e)).
  { rewrite dispatch_spec. by rewrite <- Hres. }
  assert (Hprocess : process_file generate_content convert_text timing final st
                     = Some (st', Raise e)).
  { unfold process_file. fold st'. by rewrite Hdispatch. }
  exists i, image_data, e. split_and!; try done.
  - intros j image_data' Hj Hpage'.
    apply (Hbefore j); [done|]. by rewrite list_lookup_fmap, Hpage'.
  - intros Hasked. unfold script. rewrite Hasked.
    destruct (images st) as [|? ?] eqn:Himages; [by apply elem_of_nil in Hin|].
    simpl. by rewrite Hprocess.
Qed.

Lemma process_file_fails_fast_witness :
  ∃ e,
    process_file sample_service sample_pandoc none_early finish_2_0_1
      page_1_rejected
    = Some (set_format_selected (select_format page_1_rejected) page_1_rejected,
            Raise e).
Proof.
  destruct (process_file_fails_fast sample_service sample_pandoc (λ _, false)
              sample_sort none_early finish_2_0_1 page_1_rejected)
    as (i & image_data & e & Hi & He & _ & _ & Hprocess & _).
  { exists [], (ServiceError "empty image"). split; [|reflexivity].
    apply list_elem_of_lookup. by exists 1. }
  by exists e.
Defined.

(** Pairing a list with its positions. *)
Lemma elem_of_zip_seq {A} (l : list A) (i : nat) (x : A) :
  (i, x) ∈ zip (seq 0 (length l)) l ↔ l !! i = Some x.
Proof.
  rewrite list_elem_of_lookup. split.
  - intros [j Hj].
    apply lookup_zip_with_Some in Hj as (a & b & Heq & Ha & Hb).
    injection Heq as -> ->. by apply lookup_seq in Ha as [-> _].
  - intros Hx. exists i. apply lookup_zip_with_Some. exists i, x.
    split_and!; [done| |done]. apply lookup_seq. split; [done|].
    by apply lookup_lt_Some in Hx.
Qed.

(** C5. In a run that completes, whatever the order in which the calls
    finished, [tasks] has the keys [0 .. pageCount-1], each once; the future
    filed under key [i] holds the outcome of the call for page [i]; and the
    returned texts, which stand in the order of these keys, are one for
    each key: the text at key [i] is the transcription of page [i] and of
    no other page. *)
Theorem dispatch_result_indices
    (generate_content : str → image_part → outcome str)
    (timing : nat → list future_ref) (final : list future_ref)
    (st : session_state) (texts : list str) :
  dispatch generate_content timing final st = Some (Return texts) →
  let tasks := (submit_pages generate_content timing st).2 in
  let pool :=
    shutdown generate_content
      (workers_progress generate_content final
         (submit_pages generate_content timing st).1) in
  let indexed := zip (keys tasks) texts in
  indexed.*1 = seq 0 (length (images st))
  ∧ indexed.*2 = texts
  ∧ NoDup indexed.*1
  ∧ (∀ i, i ∈ indexed.*1 ↔ i < length (images st))
  ∧ (∀ i text,
       (i, text) ∈ indexed
       ↔ ∃ image_data,
           images st !! i = Some image_data
           ∧ transcription generate_content st image_data = Return text)
  ∧ (∀ i task,
       (i, task) ∈ items tasks →
       ∃ image_data,
         images st !! i = Some image_data
         ∧ result pool task
           = Some (transcription generate_content st image_data))
  ∧ NoDup (values tasks).
Proof.
  intros Hdone tasks pool indexed.
  rewrite dispatch_spec in Hdone. injection Hdone as Hdone.
  apply first_error_or_all_success in Hdone.
  assert (Hlen : length texts = length (images st)).
  { by rewrite <- (length_fmap Return), <- Hdone, length_fmap. }
  destruct (submit_pages_spec generate_content st timing)
    as (ex & Hsubmit & Hinv).
  assert (Htasks : tasks = zip (seq 0 (length (images st)))
                             (seq 0 (length (images st))))
    by (subst tasks; by rewrite Hsubmit).
  assert (Hpool : pool = FINISHED <$>
                    (transcription generate_content st <$> images st)).
  { subst pool. rewrite Hsubmit. simpl.
    apply shutdown_finished. by apply workers_progress_future_for. }
  assert (Hkeys : keys tasks = seq 0 (length (images st))).
  { rewrite Htasks. unfold keys. by rewrite fst_zip. }
  assert (Hfst : indexed.*1 = seq 0 (length (images st))).
  { subst indexed. rewrite fst_zip; [done|]. rewrite Hkeys, length_seq. lia. }
  split_and!.
  - done.
  - subst indexed. rewrite snd_zip; [done|]. rewrite Hkeys, length_seq. lia.
  - rewrite Hfst. apply NoDup_seq.
  - intros i. rewrite Hfst, elem_of_seq. lia.
  - intros i text. subst indexed. rewrite Hkeys, <- Hlen, elem_of_zip_seq.
    split.
    + intros Htext.
      assert (Hpage : (transcription generate_content st <$> images st) !! i
                      = Some (Return text))
        by by rewrite Hdone, list_lookup_fmap, Htext.
      apply list_lookup_fmap_Some in Hpage as (image_data & Hpage & Hi).
      by exists image_data.
    + intros (image_data & Hi & Hpage).
      assert (Htext : (Return <$> texts) !! i = Some (Return text))
        by by rewrite <- Hdone, list_lookup_fmap, Hi; simpl; rewrite Hpage.
      by apply list_lookup_fmap_Some in Htext as (text' & [= <-] & Htext).
  - intros i task. unfold items. rewrite Htasks.
    rewrite <- (length_seq (length (images st)) 0) at 1.
    rewrite elem_of_zip_seq. intros [-> Hi]%lookup_seq. simpl.
    destruct (lookup_lt_is_Some_2 (images st) i Hi) as [image_data Hpage].
    exists image_data. split; [done|]. rewrite Hpool. unfold result.
    by rewrite !list_lookup_fmap, Hpage.
  - rewrite Htasks. unfold values. rewrite snd_zip by done. apply NoDup_seq.
Qed.

Lemma dispatch_result_indices_witness :
  zip (keys (submit_pages sample_service none_early three_pages).2)
      [lit "page 0"; lit "page 1"; lit "page 2"]
  = [(0, lit "page 0"); (1, lit "page 1"); (2, lit "page 2")]
  ∧ ∀ i text,
      (i, text) ∈ zip (keys (submit_pages sample_service none_early
                               three_pages).2)
                      [lit "page 0"; lit "page 1"; lit "page 2"]
      ↔ ∃ image_data,
          images three_pages !! i = Some image_data
          ∧ transcription sample_service three_pages image_data = Return text.
Proof.
  split; [reflexivity|].
  apply (dispatch_result_indices sample_service none_early finish_2_0_1
           three_pages [lit "page 0"; lit "page 1"; lit "page 2"]).
  reflexivity.
Defined.

(** ** Joining the pages and converting *)

(** C3. The joined text of no page is the empty string, and the joined
    text of the pages is the first page's text followed, for every further
    page in order, by a blank line and that page's text. *)
Theorem aggregate_blank_line_between_pages :
  aggregate [] = []
  ∧ ∀ (text : str) (texts : list str),
      aggregate (text :: texts)
      = text ++ concat (map (λ next, [LF; LF] ++ next) texts).
Proof. split; [reflexivity|]. intros text texts. apply join_cons. Qed.

(** C6. When the markup transform answers with a body, [md_to_latex]
    returns the fixed preamble, then that body, then the closing
    [end{document}]; this is what line 74 stores for the LaTeX format. The
    preamble carries the document class, the margins, the title, the author,
    the date and the opening of the document. *)
Theorem md_to_latex_wraps_body
    (convert_text : str → str → str → outcome str)
    (md_content latex_body : str) :
  convert_text md_content (lit "latex") (lit "md") = Return latex_body →
  md_to_latex convert_text md_content
  = Return (latex_preamble ++ latex_body ++ lit "\end{document}")
  ∧ (∀ st, format_selected st = lit "LaTeX" → output st = md_content →
       convert convert_text st
       = (set_output (latex_preamble ++ latex_body ++ lit "\end{document}") st,
          Return ()))
  ∧ Forall (λ marker, contains (lit marker) latex_preamble = true)
      [ "\documentclass"; "\geometry{margin=1in}"; "\title{"; "\author{";
        "\date{"; "\begin{document}" ]%string.
Proof.
  intros Hbody.
  assert (Hmd : md_to_latex convert_text md_content
                = Return (latex_preamble ++ latex_body ++ lit "\end{document}")).
  { unfold md_to_latex. rewrite Hbody. reflexivity. }
  split_and!; [done| |].
  - intros st Hformat Houtput. unfold convert.
    rewrite decide_True by done. by rewrite Houtput, Hmd.
  - repeat constructor.
Qed.

Lemma md_to_latex_wraps_body_witness :
  md_to_latex sample_pandoc (lit "# Title")
  = Return (latex_preamble ++ lit "\section{Title}" ++ lit "\end{document}")
  ∧ convert sample_pandoc latex_session
    = (set_output
         (latex_preamble ++ lit "\section{Title}" ++ lit "\end{document}")
         latex_session,
       Return ()).
Proof.
  destruct (md_to_latex_wraps_body sample_pandoc (lit "# Title")
              (lit "\section{Title}") eq_refl) as (Hmd & Hconvert & _).
  split; [exact Hmd|]. apply Hconvert; reflexivity.
Defined.

(** C7. For the plain-text and the Markdown format the conversion step
    returns every text as it is, so that [process_file] stores the joined
    text of the pages unchanged. *)
Theorem process_file_keeps_joined_text
    (generate_content : str → image_part → outcome str)
    (convert_text : str → str → str → outcome str)
    (timing : nat → list future_ref) (final : list future_ref)
    (st : session_state) (texts : list str) :
  let st' := set_format_selected (select_format st) st in
  plain_text_convert st || markdown_convert st = true →
  dispatch generate_content timing final st' = Some (Return texts) →
  (format_selected st' = lit "Plain Text" ∨ format_selected st' = lit "Markdown")
  ∧ (∀ text, convert convert_text (set_output text st')
             = (set_output text st', Return ()))
  ∧ process_file generate_content convert_text timing final st
    = Some (set_output (aggregate texts) st', Return ()).
Proof.
  intros st' Hbutton Hdone.
  assert (Hformat : format_selected st' = lit "Plain Text"
                    ∨ format_selected st' = lit "Markdown").
  { subst st'. unfold select_format. simpl.
    destruct (plain_text_convert st); [by left|].
    destruct (markdown_convert st); [by right|done]. }
  assert (Hconvert : ∀ text, convert convert_text (set_output text st')
                             = (set_output text st', Return ())).
  { intros text. unfold convert.
    change (format_selected (set_output text st')) with (format_selected st').
    rewrite decide_False; [done|].
    destruct Hformat as [-> | ->]; discriminate. }
  split_and!; [done..|].
  unfold process_file. fold st'. by rewrite Hdone, Hconvert.
Qed.

Lemma process_file_keeps_joined_text_witness :
  process_file sample_service sample_pandoc none_early finish_2_0_1 three_pages
  = Some (set_output (aggregate [lit "page 0"; lit "page 1"; lit "page 2"])
            (set_format_selected (select_format three_pages) three_pages),
          Return ()).
Proof.
  apply (process_file_keeps_joined_text sample_service sample_pandoc
           none_early finish_2_0_1 three_pages
           [lit "page 0"; lit "page 1"; lit "page 2"]).
  - reflexivity.
  - reflexivity.
Defined.

(** C8. In a run of the script that completes, the file name and the mime
    type offered for download follow the selected format: [.txt] and
    [text/plain] for plain text, [.md] and [text/markdown] for Markdown,
    [.tex] and [application/x-tex] for LaTeX; after a conversion the
    selected format is the one the pressed button stands for. *)
Theorem download_hints_follow_format
    (generate_content : str → image_part → outcome str)
    (convert_text : str → str → str → outcome str)
    (unicode_isalnum : char → bool)
    (sort_values : list (char * nat) → list (char * nat))
    (timing : nat → list future_ref) (final : list future_ref)
    (st st' : session_state) (shown : page) :
  script generate_content convert_text unicode_isalnum sort_values
    timing final st
  = Some (st', Return shown) →
  (format_selected st' = lit "Plain Text" →
     download_file_name shown = lit "converted_notes.txt"
     ∧ download_mime shown = lit "text/plain")
  ∧ (format_selected st' = lit "Markdown" →
     download_file_name shown = lit "converted_notes.md"
     ∧ download_mime shown = lit "text/markdown")
  ∧ (format_selected st' = lit "LaTeX" →
     download_file_name shown = lit "converted_notes.tex"
     ∧ download_mime shown = lit "application/x-tex")
  ∧ (requested st = true → format_selected st' = select_format st).
Proof.
  intros Hrun.
  assert (Hshown : download_file_name shown = file_name st'
                   ∧ download_mime shown = mime st'
                   ∧ (requested st = true →
                      format_selected st' = select_format st)).
  { unfold script in Hrun. fold (requested st) in Hrun.
    destruct (requested st).
    - unfold process_file in Hrun.
      destruct (dispatch _ _ _ _) as [[texts|e]|]; [|done..].
      unfold convert in Hrun. simpl in Hrun. case_decide as Hlatex.
      + destruct (md_to_latex _ _) as [latex|e]; [|done].
        by injection Hrun as <- <-.
      + by injection Hrun as <- <-.
    - by injection Hrun as <- <-. }
  destruct Hshown as (-> & -> & Hformat). unfold file_name, mime.
  split_and!; [intros ->; by split..|done].
Qed.

Lemma download_hints_follow_format_witness :
  ∃ st' shown,
    script sample_service sample_pandoc (λ _, false) sample_sort
      none_early finish_2_0_1 three_pages
    = Some (st', Return shown)
    ∧ format_selected st' = lit "Markdown"
    ∧ download_file_name shown = lit "converted_notes.md"
    ∧ download_mime shown = lit "text/markdown".
Proof.
  eexists _, _. split; [reflexivity|]. split; [reflexivity|].
  eapply (download_hints_follow_format sample_service sample_pandoc
            (λ _, false) sample_sort none_early finish_2_0_1 three_pages);
    reflexivity.
Defined.

(** ** The frequency table *)

Global Instance by_count_desc_transitive : Transitive by_count_desc.
Proof. unfold by_count_desc. intros r1 r2 r3 H12 H23. lia. Qed.

Global Instance by_count_desc_total : Total by_count_desc.
Proof. unfold by_count_desc. intros r1 r2. lia. Qed.

Lemma sample_sort_sorts_descending : sorts_descending sample_sort.
Proof.
  intros rows. split.
  - apply merge_sort_Permutation.
  - apply (Sorted_merge_sort by_count_desc).
Qed.

(** The first row of a table in descending order has the largest count. *)
Lemma descending_head_max (rows rest : list (char * nat)) (r r' : char * nat) :
  r :: rest ≡ₚ rows → StronglySorted by_count_desc (r :: rest) →
  r' ∈ rows → r'.2 ≤ r.2.
Proof.
  intros Hperm Hsorted Hin. rewrite <- Hperm in Hin.
  apply StronglySorted_inv in Hsorted as [_ Hhead].
  apply elem_of_cons in Hin as [->|Hin]; [done|].
  rewrite Forall_forall in Hhead. by apply (Hhead r').
Qed.

(** *** Sorts that keep ties *)

Lemma insert_desc_Permutation r rows : insert_desc r rows ≡ₚ r :: rows.
Proof.
  induction rows as [|r' rows IH]; simpl; [done|].
  case_decide; [|done]. by rewrite IH, Permutation_swap.
Qed.

Lemma insert_desc_Sorted r rows :
  Sorted by_count_desc rows → Sorted by_count_desc (insert_desc r rows).
Proof.
  induction 1 as [|r' rows Hsorted IH Hhead]; simpl; [by repeat constructor|].
  case_decide as Hlt.
  - constructor; [done|]. destruct Hhead as [|r'' rows Hr'']; simpl.
    + constructor. unfold by_count_desc. lia.
    + case_decide; constructor; [done|]. unfold by_count_desc. lia.
  - constructor; [by constructor|]. constructor. unfold by_count_desc. lia.
Qed.

Lemma insert_desc_filter r rows n :
  filter (λ r, r.2 = n) (insert_desc r rows)
  = filter (λ r, r.2 = n) (r :: rows).
Proof.
  induction rows as [|r' rows IH]; simpl; [done|].
  case_decide as Hlt; [|done].
  rewrite (filter_cons _ r'), IH, !(filter_cons _ r), !(filter_cons _ r').
  repeat case_decide; try done. lia.
Qed.

Lemma stable_sort_sorts_descending : sorts_descending stable_sort.
Proof.
  intros rows. unfold stable_sort.
  induction rows as [|r rows [IHperm IHsorted]]; simpl; [by split; constructor|].
  split.
  - by rewrite insert_desc_Permutation, IHperm.
  - by apply insert_desc_Sorted.
Qed.

Lemma stable_sort_keeps_ties : keeps_ties stable_sort.
Proof.
  intros rows n. unfold stable_sort.
  induction rows as [|r rows IH]; simpl; [done|].
  by rewrite insert_desc_filter, !(filter_cons _ r), IH.
Qed.

(** *** Rows in the order of first occurrence *)

Lemma first_occurrence_lt c text : c ∈ text → first_occurrence c text < length text.
Proof.
  induction text as [|x text IH]; simpl; [by intros ?%elem_of_nil|].
  intros Hin. case_decide as Hx; [lia|].
  apply elem_of_cons in Hin as [->|Hin]; [done|]. specialize (IH Hin). lia.
Qed.

Lemma first_occurrence_app c text more :
  c ∈ text → first_occurrence c (text ++ more) = first_occurrence c text.
Proof.
  induction text as [|x text IH]; simpl; [by intros ?%elem_of_nil|].
  intros Hin. case_decide as Hx; [done|].
  apply elem_of_cons in Hin as [->|Hin]; [done|]. by rewrite IH.
Qed.

Lemma first_occurrence_snoc_new c text :
  c ∉ text → first_occurrence c (text ++ [c]) = length text.
Proof.
  induction text as [|x text IH]; simpl.
  - intros _. by rewrite decide_True.
  - rewrite not_elem_of_cons. intros [Hne Hnin].
    rewrite decide_False by done. by rewrite IH.
Qed.

Section Before.
Context {A : Type}.
Implicit Types (x y z : A) (l : list A).

Lemma before_elem_of x y l : before x y l → x ∈ l ∧ y ∈ l.
Proof.
  intros (l1 & l2 & l3 & ->). split.
  - apply elem_of_app. right. left.
  - apply elem_of_app. right. right. apply elem_of_app. right. left.
Qed.

Lemma before_cons x y z l : before x y l → before x y (z :: l).
Proof. intros (l1 & l2 & l3 & ->). by exists (z :: l1), l2, l3. Qed.

Lemma before_lookup x y l i j :
  l !! i = Some x → l !! j = Some y → i < j → before x y l.
Proof.
  intros Hi Hj Hlt.
  assert (Hi' : take j l !! i = Some x) by by rewrite lookup_take_lt.
  exists (take i (take j l)), (drop (S i) (take j l)), (drop (S j) l).
  transitivity ((take i (take j l) ++ x :: drop (S i) (take j l))
                ++ y :: drop (S j) l).
  - by rewrite (take_drop_middle _ i x Hi'), (take_drop_middle _ j y Hj).
  - by rewrite <- (assoc_L (++)).
Qed.

Lemma before_snoc_inv x y z l :
  before x y (l ++ [z]) → before x y l ∨ (x ∈ l ∧ y = z).
Proof.
  intros (l1 & l2 & l3 & Heq).
  destruct l3 as [|w l3 _] using rev_ind.
  - right.
    replace (l1 ++ x :: l2 ++ [y]) with ((l1 ++ x :: l2) ++ [y]) in Heq
      by (by rewrite <- (assoc_L (++))).
    apply app_inj_tail in Heq as [-> ->]. split; [|done].
    apply elem_of_app. right. left.
  - left. exists l1, l2, l3.
    replace (l1 ++ x :: l2 ++ y :: l3 ++ [w])
      with ((l1 ++ x :: l2 ++ y :: l3) ++ [w]) in Heq
      by (rewrite <- (assoc_L (++)); simpl; by rewrite <- (assoc_L (++))).
    by apply app_inj_tail in Heq as [-> _].
Qed.

Lemma before_fmap {B} (f : A → B) x y l :
  before x y l → before (f x) (f y) (f <$> l).
Proof.
  intros (l1 & l2 & l3 & ->). exists (f <$> l1), (f <$> l2), (f <$> l3).
  by rewrite fmap_app, fmap_cons, fmap_app, fmap_cons.
Qed.

Context (P : A → Prop) `{!∀ x, Decision (P x)}.

Lemma before_filter x y l : P x → P y → before x y l → before x y (filter P l).
Proof.
  intros Hx Hy (l1 & l2 & l3 & ->).
  exists (filter P l1), (filter P l2), (filter P l3).
  rewrite filter_app, filter_cons_True, filter_app, filter_cons_True; done.
Qed.

Lemma before_filter_inv x y l : before x y (filter P l) → before x y l.
Proof.
  intros (l1 & l2 & l3 & Heq). revert l1 Heq.
  induction l as [|z l IH]; intros l1 Heq.
  - by destruct l1.
  - rewrite filter_cons in Heq. case_decide as Hz.
    + destruct l1 as [|z' l1]; injection Heq as -> Heq.
      * assert (Hy : y ∈ filter P l).
        { rewrite Heq. apply elem_of_app. right. left. }
        apply list_elem_of_filter in Hy as [_ Hy].
        apply list_elem_of_split in Hy as (l' & l'' & ->).
        by exists [], l', l''.
      * by apply before_cons, (IH l1).
    + by apply before_cons, (IH l1).
Qed.

End Before.

(** The keys of the dictionary stand in the order in which the characters
    first occur in the text. *)
Lemma frequency_keys_first_occurrence unicode_isalnum (text : str) c1 c2 :
  before c1 c2 (keys (foldl (count_char unicode_isalnum) [] text)) →
  first_occurrence c1 text < first_occurrence c2 text.
Proof.
  revert c1 c2. induction text as [|x text IH] using rev_ind; intros c1 c2.
  - intros (l1 & l2 & l3 & Heq). by destruct l1.
  - rewrite foldl_app. simpl.
    set (rows := foldl (count_char unicode_isalnum) [] text) in *.
    assert (Hkey : ∀ c, c ∈ keys rows ↔ c ∈ text ∧ isalnum unicode_isalnum c = true).
    { intros c. subst rows. rewrite count_keys, elem_of_nil. tauto. }
    assert (Hold : before c1 c2 (keys rows) →
                   first_occurrence c1 (text ++ [x])
                   < first_occurrence c2 (text ++ [x])).
    { intros Hbefore. destruct (before_elem_of _ _ _ Hbefore) as [H1 H2].
      apply Hkey in H1 as [H1 _]. apply Hkey in H2 as [H2 _].
      rewrite !first_occurrence_app by done. by apply IH. }
    unfold count_char at 1. destruct (isalnum unicode_isalnum x) eqn:Hx; [|done].
    rewrite keys_dict_set. case_decide as Hin; [done|].
    intros [Hbefore|[H1 ->]]%before_snoc_inv; [by apply Hold|].
    apply Hkey in H1 as [H1 _].
    rewrite (first_occurrence_app c1) by done.
    rewrite first_occurrence_snoc_new; [by apply first_occurrence_lt|].
    intros Hx'. by apply Hin, Hkey.
Qed.

(** A sort that keeps ties leaves rows of equal count in the order of
    first occurrence. *)
Lemma keeps_ties_first_occurrence unicode_isalnum sort_values (text : str) :
  keeps_ties sort_values →
  ties_by_first_occurrence text
    (generate_character_frequency unicode_isalnum sort_values text).
Proof.
  intros Hstable i j r1 r2 Hi Hj Hlt Htie.
  apply frequency_keys_first_occurrence with unicode_isalnum.
  apply (before_fmap fst), (before_filter_inv (λ r, r.2 = r1.2)).
  rewrite <- (Hstable _ r1.2). apply before_filter; [done..|].
  by apply (before_lookup _ _ _ i j).
Qed.

(** X20. For every sort that returns the rows rearranged in descending
    order of the count, the table has a row for exactly the alphanumeric
    characters of the text, upper and lower case apart, each with the number
    of its occurrences, and the rows stand in descending order of the count.
    Rows of equal count stand in the order of first occurrence when the sort
    keeps ties. For the text [aAbb1] the first row is [b] with count 2,
    followed by the rows of [a], [A] and [1] with count 1. *)
Theorem frequency_table_descending
    (unicode_isalnum : char → bool)
    (sort_values : list (char * nat) → list (char * nat))
    (text : str) :
  sorts_descending sort_values →
  let table := generate_character_frequency unicode_isalnum sort_values text in
  (∀ c n, (c, n) ∈ table
          ↔ isalnum unicode_isalnum c = true ∧ c ∈ text
            ∧ n = occurrences c text)
  ∧ StronglySorted by_count_desc table
  ∧ (keeps_ties sort_values → ties_by_first_occurrence text table)
  ∧ ∃ rest,
      generate_character_frequency unicode_isalnum sort_values (lit "aAbb1")
      = (chr "b", 2) :: rest
      ∧ rest ≡ₚ [(chr "a", 1); (chr "A", 1); (chr "1", 1)].
Proof.
  intros Hsort table. split_and!.
  - intros c n. subst table. unfold generate_character_frequency, items.
    rewrite (proj1 (Hsort _)). apply frequency_rows.
  - apply Sorted_StronglySorted; [apply _|]. apply Hsort.
  - apply keeps_ties_first_occurrence.
  - unfold generate_character_frequency, items.
    change (foldl (count_char unicode_isalnum) [] (lit "aAbb1"))
      with [(chr "a", 1); (chr "A", 1); (chr "b", 2); (chr "1", 1)].
    set (rows := [(chr "a", 1); (chr "A", 1); (chr "b", 2); (chr "1", 1)]).
    destruct (Hsort rows) as [Hperm Hsorted].
    apply Sorted_StronglySorted in Hsorted; [|apply _].
    destruct (sort_values rows) as [|r rest].
    { by apply Permutation_nil_l in Hperm. }
    assert (Hr : r ∈ rows) by (rewrite <- Hperm; left).
    assert (Hmax : 2 ≤ r.2).
    { apply (descending_head_max rows rest r (chr "b", 2) Hperm Hsorted).
      subst rows. rewrite !elem_of_cons. auto. }
    assert (r = (chr "b", 2)) as ->.
    { subst rows. repeat (apply elem_of_cons in Hr as [->|Hr]);
        simpl in Hmax; try lia; [done|]. by apply elem_of_nil in Hr. }
    exists rest. split; [done|].
    apply (Permutation_cons_inv (a := (chr "b", 2))).
    rewrite Hperm. subst rows.
    apply Permutation_sym, (Permutation_middle [_; _] [_]).
Qed.

Lemma frequency_table_descending_witness :
  generate_character_frequency (λ _, false) stable_sort (lit "aAbb1")
  = [(chr "b", 2); (chr "a", 1); (chr "A", 1); (chr "1", 1)]
  ∧ StronglySorted by_count_desc
      (generate_character_frequency (λ _, false) stable_sort (lit "aAbb1")).
Proof.
  split; [reflexivity|].
  apply (frequency_table_descending (λ _, false) stable_sort (lit "aAbb1")
           stable_sort_sorts_descending).
Defined.

(** The contract [sorts_descending] alone does not give the order of first
    occurrence among rows of equal count: merge sort meets the contract and,
    for a text of eighteen different letters, puts [q] and [r] before [a].
    This is a fact about the contract; what the sort of the program does
    with ties is not decided by it. *)
Lemma frequency_ties_not_by_first_occurrence :
  sorts_descending sample_sort
  ∧ (generate_character_frequency (λ _, false) sample_sort
       (lit "abcdefghijklmnopqr")).*1
    = lit "qrabcdefghijklmnop"
  ∧ ¬ ties_by_first_occurrence (lit "abcdefghijklmnopqr")
        (generate_character_frequency (λ _, false) sample_sort
           (lit "abcdefghijklmnopqr")).
Proof.
  split_and!; [apply sample_sort_sorts_descending | reflexivity |].
  intros Hties.
  specialize (Hties 0 2 (chr "q", 1) (chr "a", 1) eq_refl eq_refl).
  simpl in Hties. lia.
Qed.

(** C10. Every alphanumeric character of the text is the key of one row
    and no other character is a key, no key occurs twice, every count is
    positive, and the counts add up to the number of alphanumeric characters
    of the text; a text without alphanumeric characters has the empty
    table. *)
Theorem frequency_table_invariants
    (unicode_isalnum : char → bool)
    (sort_values : list (char * nat) → list (char * nat))
    (text : str) :
  (∀ rows, sort_values rows ≡ₚ rows) →
  let table := generate_character_frequency unicode_isalnum sort_values text in
  NoDup table.*1
  ∧ (∀ c, c ∈ table.*1 ↔ c ∈ text ∧ isalnum unicode_isalnum c = true)
  ∧ Forall (λ r, 0 < r.2) table
  ∧ sum_list table.*2
    = length (filter (λ c, isalnum unicode_isalnum c = true) text)
  ∧ ((∀ c, c ∈ text → isalnum unicode_isalnum c = false) → table = []).
Proof.
  intros Hperm table.
  assert (Htable : table ≡ₚ foldl (count_char unicode_isalnum) [] text)
    by apply Hperm.
  assert (Hkeys : ∀ c, c ∈ table.*1
                       ↔ c ∈ text ∧ isalnum unicode_isalnum c = true).
  { intros c. rewrite Htable.
    change (c ∈ keys (foldl (count_char unicode_isalnum) [] text) ↔
            c ∈ text ∧ isalnum unicode_isalnum c = true).
    rewrite count_keys, elem_of_nil. tauto. }
  split_and!.
  - rewrite Htable. apply (count_keys_NoDup unicode_isalnum []). constructor.
  - done.
  - rewrite Htable. apply count_positive. constructor.
  - rewrite Htable. apply (count_sum unicode_isalnum []).
  - intros Hnone. destruct table as [|[c n] table']; [done|].
    assert (Hc : c ∈ ((c, n) :: table').*1) by left.
    apply Hkeys in Hc as [Hin Hc]. rewrite (Hnone c Hin) in Hc. done.
Qed.

Lemma frequency_table_invariants_witness :
  sum_list (generate_character_frequency (λ _, false) sample_sort
              (lit "aAbb1, ok?")).*2
  = 7.
Proof.
  apply (frequency_table_invariants (λ _, false) sample_sort
           (lit "aAbb1, ok?")).
  intros rows. apply sample_sort_sorts_descending.
Defined.

(** ** Sample runs *)

Example join_three :
  join (lit ", ") [lit "a"; lit "b"; lit "c"] = lit "a, b, c".
Proof. reflexivity. Qed.

Example aggregate_two_pages :
  aggregate [lit "first"; lit "second"] = lit "first" ++ [LF; LF] ++ lit "second".
Proof. reflexivity. Qed.

Example prompt_for_markdown :
  get_custom_prompt (lit "Markdown")
  = base_prompt ++ lit " Format: Markdown.".
Proof. reflexivity. Qed.

(** Every call finishes as soon as it is submitted. *)
Example dispatch_in_submission_order :
  dispatch sample_service (λ i, [i]) [] three_pages
  = Some (Return [lit "page 0"; lit "page 1"; lit "page 2"]).
Proof. reflexivity. Qed.

(** Page 2 finishes while the loop is still running, page 1 before page 0
    afterwards. *)
Example dispatch_out_of_order :
  dispatch sample_service (λ i, if decide (i = 2) then [2] else []) [1; 0]
    three_pages
  = Some (Return [lit "page 0"; lit "page 1"; lit "page 2"]).
Proof. reflexivity. Qed.

Example process_file_page_1_rejected :
  process_file sample_service sample_pandoc none_early finish_2_0_1
    page_1_rejected
  = Some (set_format_selected (lit "Markdown") page_1_rejected,
          Raise (ServiceError "empty image")).
Proof. reflexivity. Qed.

Example script_page_1_rejected :
  script sample_service sample_pandoc (λ _, false) stable_sort
    none_early finish_2_0_1 page_1_rejected
  = Some (set_format_selected (lit "Markdown") page_1_rejected,
          Raise (ServiceError "empty image")).
Proof. reflexivity. Qed.

(** With neither button pressed [process_file] selects LaTeX and wraps the
    transformed text. *)
Example process_file_latex :
  process_file sample_service sample_pandoc none_early [] latex_session
  = Some (set_output (latex_preamble ++ lit "page 0" ++ lit "\end{document}")
            latex_session,
          Return ()).
Proof. reflexivity. Qed.

Example script_three_pages_chart :
  ∃ st shown,
    script sample_service sample_pandoc (λ _, false) stable_sort
      none_early finish_2_0_1 three_pages
    = Some (st, Return shown)
    ∧ text_area shown
      = lit "page 0" ++ [LF; LF] ++ lit "page 1" ++ [LF; LF] ++ lit "page 2"
    ∧ frequency_chart shown
      = Some [(chr "p", 3); (chr "a", 3); (chr "g", 3); (chr "e", 3);
              (chr "0", 1); (chr "1", 1); (chr "2", 1)].
Proof. eexists _, _. split_and!; reflexivity. Qed.

Example frequency_stable_sort :
  generate_character_frequency (λ _, false) stable_sort
    (lit "hello world, HELLO 123 321")
  = [(chr "l", 3); (chr "o", 2); (chr "L", 2); (chr "1", 2); (chr "2", 2);
     (chr "3", 2); (chr "h", 1); (chr "e", 1); (chr "w", 1); (chr "r", 1);
     (chr "d", 1); (chr "H", 1); (chr "E", 1); (chr "O", 1)].
Proof. reflexivity. Qed.

(** ** Session initialisation *)

Lemma foldl_initialize_key_lookup (keys : list string)
    (ss : gmap string value) (key : string) :
  foldl initialize_key ss keys !! key
  = match ss !! key with
    | Some v => Some v
    | None => if decide (key ∈ keys) then Some (initial_value key) else None
    end.
Proof.
  revert ss. induction keys as [|k keys IH]; intros ss; simpl.
  - by destruct (ss !! key).
  - rewrite IH. unfold initialize_key.
    destruct (ss !! k) as [v|] eqn:Hk.
    + destruct (ss !! key) as [w|] eqn:Hkey; [done|].
      assert (key ≠ k) by congruence.
      destruct (decide (key ∈ keys)) as [Hin|Hnin].
      * rewrite decide_True; [done | by right].
      * rewrite decide_False; [done|]. rewrite elem_of_cons. tauto.
    + destruct (decide (key = k)) as [->|Hne].
      * rewrite lookup_insert_eq, Hk. rewrite decide_True; [done | left].
      * rewrite lookup_insert_ne by done.
        destruct (ss !! key) as [w|]; [done|].
        destruct (decide (key ∈ keys)) as [Hin|Hnin].
        -- rewrite decide_True; [done | by right].
        -- rewrite decide_False; [done|]. rewrite elem_of_cons. tauto.
Qed.

(** X1. After [initialize_session_state] a key that was in the session
    has the value it had, a missing key of the list has its initial value
    ([None] for the upload, the empty list for the images, the empty string
    for the others), and no other key is added. *)
Theorem initialize_session_state_lookup (ss : gmap string value) (key : string) :
  initialize_session_state ss !! key
  = match ss !! key with
    | Some v => Some v
    | None =>
        if decide (key ∈ session_keys) then Some (initial_value key) else None
    end.
Proof. apply foldl_initialize_key_lookup. Qed.

(** X2. Initialising a session twice is the same as initialising it once:
    a rerun of the script never resets what the session holds. *)
Theorem initialize_session_state_idempotent (ss : gmap string value) :
  initialize_session_state (initialize_session_state ss)
  = initialize_session_state ss.
Proof.
  apply map_eq. intros key. unfold initialize_session_state.
  rewrite !foldl_initialize_key_lookup.
  destruct (ss !! key) as [v|]; [done|]. by case_decide.
Qed.

(** The first run starts from [fresh_session]. *)
Lemma session_view_initial :
  session_view (initialize_session_state ∅) = Some fresh_session.
Proof.
  unfold session_view, initialize_session_state.
  rewrite !foldl_initialize_key_lookup, !lookup_empty. reflexivity.
Qed.

(** ** The rasterizer *)

Section OutcomeLists.
Context {A B : Type} (f : A → outcome B).

Lemma mapM_Return (l : list A) (k : list B) :
  mapM f l = Return k ↔ Forall2 (λ x y, f x = Return y) l k.
Proof.
  revert k. induction l as [|x l IH]; intros k; simpl.
  - split; [intros [= <-]; constructor | by inversion 1].
  - unfold mbind, outcome_bind. simpl.
    destruct (f x) as [y|e] eqn:Hx; simpl.
    + destruct (mapM f l) as [k'|e']; simpl.
      * split.
        -- intros [= <-]. constructor; [done|]. by apply IH.
        -- inversion 1 as [|? y' ? k'' Hy Hrest]; simplify_eq.
           apply IH in Hrest. injection Hrest as ->.
           rewrite Hx in Hy. by injection Hy as ->.
      * split; [done|]. inversion 1 as [|? y' ? k'' Hy Hrest]; simplify_eq.
        by apply IH in Hrest.
    + split; [done|]. inversion 1 as [|? y' ? k'' Hy Hrest]. congruence.
Qed.

Lemma mapM_Raise (l : list A) (e : exn) :
  mapM f l = Raise e
  ↔ ∃ i x, l !! i = Some x ∧ f x = Raise e
           ∧ ∀ j x', j < i → l !! j = Some x' → ∃ y, f x' = Return y.
Proof.
  induction l as [|x l IH]; simpl.
  - split; [done | by intros (i & x & ? & _)].
  - unfold mbind, outcome_bind. simpl.
    destruct (f x) as [y|e'] eqn:Hx; simpl.
    + assert (Hrest : mapM f l = Raise e
                      ↔ match mapM f l with
                        | Return k => Return (y :: k)
                        | Raise e0 => Raise e0
                        end = Raise e).
      { by destruct (mapM f l). }
      unfold mret, outcome_ret in *. rewrite <- Hrest, IH. split.
      * intros (i & x' & Hi & Hfail & Hbefore). exists (S i), x'.
        split_and!; [done..|]. intros [|j] x'' Hj Hx''; simpl in Hx''.
        -- injection Hx'' as <-. eauto.
        -- apply (Hbefore j); [lia|done].
      * intros ([|i] & x' & Hi & Hfail & Hbefore); simpl in Hi.
        -- injection Hi as <-. congruence.
        -- exists i, x'. split_and!; [done..|]. intros j x'' Hj Hx''.
           apply (Hbefore (S j)); [lia|done].
    + split.
      * intros [= <-]. exists 0, x. split_and!; [done..|]. intros j ? Hj. lia.
      * intros ([|i] & x' & Hi & Hfail & Hbefore); simpl in Hi.
        -- injection Hi as <-. congruence.
        -- destruct (Hbefore 0 x) as [y Hy]; [lia|done|congruence].
Qed.

End OutcomeLists.

Section RasterizerFacts.

Variable pdf_page : Type.
Variable fitz_open : bytes → outcome (list pdf_page).
Variable render_png : pdf_page → outcome bytes.

Lemma foldl_render_page_Raise doc e page_nums :
  foldl (render_page render_png doc) (Raise e) page_nums = Raise e.
Proof. induction page_nums as [|n page_nums IH]; simpl; done. Qed.

(** The loop of [pdf_to_images] renders the pages one after the other and
    never asks for a page outside the document. *)
Lemma foldl_render_page earlier pages acc :
  foldl (render_page render_png (earlier ++ pages)) (Return acc)
    (seq (length earlier) (length pages))
  = match mapM render_png pages with
    | Return imgs => Return (acc ++ imgs)
    | Raise e => Raise e
    end.
Proof.
  revert earlier acc. induction pages as [|page pages IH]; intros earlier acc.
  - simpl. by rewrite app_nil_r.
  - cbn [length seq foldl]. unfold render_page at 2, load_page.
    rewrite lookup_app_r, Nat.sub_diag by done. simpl.
    unfold mbind, outcome_bind. simpl.
    destruct (render_png page) as [png|e]; simpl.
    + specialize (IH (earlier ++ [page]) (acc ++ [png])).
      rewrite <- (assoc_L (++)), length_app, Nat.add_1_r in IH. simpl in IH.
      unfold mret, outcome_ret. rewrite IH.
      destruct (mapM render_png pages) as [imgs|e]; simpl; [|done].
      by rewrite <- (assoc_L (++)).
    + apply foldl_render_page_Raise.
Qed.

Lemma pdf_to_images_mapM pdf_file doc :
  fitz_open pdf_file = Return doc →
  pdf_to_images fitz_open render_png pdf_file = mapM render_png doc.
Proof.
  intros Hopen. unfold pdf_to_images. rewrite Hopen.
  unfold mbind, outcome_bind. simpl.
  pose proof (foldl_render_page [] doc []) as Hloop. simpl in Hloop.
  rewrite Hloop. by destruct (mapM render_png doc).
Qed.

(** X3. [pdf_to_images] returns a list of images exactly when the
    document opens and every page renders; the list then has one image for
    each page, in page order. *)
Theorem pdf_to_images_success (pdf_file : bytes) (imgs : list bytes) :
  pdf_to_images fitz_open render_png pdf_file = Return imgs
  ↔ ∃ doc, fitz_open pdf_file = Return doc
           ∧ Forall2 (λ page png, render_png page = Return png) doc imgs.
Proof.
  split.
  - intros Hdone. destruct (fitz_open pdf_file) as [doc|e] eqn:Hopen.
    + exists doc. split; [done|]. apply mapM_Return.
      by rewrite <- (pdf_to_images_mapM pdf_file doc).
    + unfold pdf_to_images in Hdone. by rewrite Hopen in Hdone.
  - intros (doc & Hopen & Hpages).
    rewrite (pdf_to_images_mapM pdf_file doc) by done. by apply mapM_Return.
Qed.

(** X4. [pdf_to_images] fails exactly when the document does not open,
    with that error, or a page does not render, with the error of the first
    such page; the loop itself never raises, as it asks only for pages of
    the document. *)
Theorem pdf_to_images_failure (pdf_file : bytes) (e : exn) :
  pdf_to_images fitz_open render_png pdf_file = Raise e
  ↔ fitz_open pdf_file = Raise e
    ∨ ∃ doc i page,
        fitz_open pdf_file = Return doc
        ∧ doc !! i = Some page ∧ render_png page = Raise e
        ∧ ∀ j page', j < i → doc !! j = Some page' →
            ∃ png, render_png page' = Return png.
Proof.
  destruct (fitz_open pdf_file) as [doc|e'] eqn:Hopen.
  - rewrite (pdf_to_images_mapM pdf_file doc), mapM_Raise by done. split.
    + intros (i & page & Hi & Hfail & Hbefore). right. by exists doc, i, page.
    + intros [?|(doc' & i & page & [= <-] & Hi & Hfail & Hbefore)]; [done|].
      by exists i, page.
  - unfold pdf_to_images. rewrite Hopen. simpl. split.
    + intros [= <-]. by left.
    + by intros [[= <-]|(doc & i & page & ? & _)].
Qed.

End RasterizerFacts.

(** ** Further properties of the pipeline *)

(** X5. Two formats give the same prompt only when they are the same
    format: the format can be read back from the prompt. *)
Theorem get_custom_prompt_inj (format1 format2 : str) :
  get_custom_prompt format1 = get_custom_prompt format2 ↔ format1 = format2.
Proof.
  split; [|by intros ->]. unfold get_custom_prompt. intros Heq.
  apply app_inv_head in Heq. apply app_inv_head in Heq.
  by apply app_inv_tail in Heq.
Qed.

Section ProcessFacts.

Variable generate_content : str → image_part → outcome str.
Variable convert_text : str → str → str → outcome str.

(** [process_file] in terms of the outcomes of the pages. *)
Lemma process_file_cases timing final st :
  process_file generate_content convert_text timing final st
  = Some
      (let st' := set_format_selected (select_format st) st in
       match first_error_or_all
               (transcription generate_content st' <$> images st) with
       | Return texts => convert convert_text (set_output (aggregate texts) st')
       | Raise e => (st', Raise e)
       end).
Proof.
  unfold process_file. rewrite dispatch_spec. simpl.
  by destruct (first_error_or_all _).
Qed.

(** The conversion step touches the output only. *)
Lemma convert_frame st :
  let st' := (convert convert_text st).1 in
  format_selected st' = format_selected st
  ∧ plain_text_convert st' = plain_text_convert st
  ∧ markdown_convert st' = markdown_convert st
  ∧ latex_convert st' = latex_convert st
  ∧ images st' = images st.
Proof.
  unfold convert. case_decide; [|done]. by destruct (md_to_latex _ _).
Qed.

Lemma convert_not_latex st :
  format_selected st ≠ lit "LaTeX" → convert convert_text st = (st, Return ()).
Proof. intros Hformat. unfold convert. by rewrite decide_False. Qed.

Lemma process_file_frame timing final st st' r :
  process_file generate_content convert_text timing final st = Some (st', r) →
  format_selected st' = select_format st
  ∧ plain_text_convert st' = plain_text_convert st
  ∧ markdown_convert st' = markdown_convert st
  ∧ latex_convert st' = latex_convert st
  ∧ images st' = images st.
Proof.
  rewrite process_file_cases. simpl.
  destruct (first_error_or_all _) as [texts|e].
  - intros [= Hrun].
    pose proof (convert_frame
                  (set_output (aggregate texts)
                     (set_format_selected (select_format st) st))) as Hframe.
    rewrite Hrun in Hframe. exact Hframe.
  - by intros [= <- <-].
Qed.

(** X6. [process_file] always returns, for every order in which the
    calls finish: it never waits on a future that no worker finishes. It
    sets the format the buttons stand for and leaves the buttons and the
    images as they were. *)
Theorem process_file_returns
    (timing : nat → list future_ref) (final : list future_ref)
    (st : session_state) :
  ∃ st' r,
    process_file generate_content convert_text timing final st = Some (st', r)
    ∧ format_selected st' = select_format st
    ∧ plain_text_convert st' = plain_text_convert st
    ∧ markdown_convert st' = markdown_convert st
    ∧ latex_convert st' = latex_convert st
    ∧ images st' = images st.
Proof.
  destruct (process_file generate_content convert_text timing final st)
    as [[st' r]|] eqn:Hrun.
  - exists st', r. split; [done|].
    by apply (process_file_frame timing final st st' r).
  - by rewrite process_file_cases in Hrun.
Qed.

(** X7. With neither button pressed, when the pages are transcribed but
    the markup transform fails, [process_file] ends with the error of the
    transform and the session keeps the joined text as its output: the
    earlier output is already overwritten. *)
Theorem process_file_conversion_error
    (timing : nat → list future_ref) (final : list future_ref)
    (st : session_state) (texts : list str) (e : exn) :
  let st' := set_format_selected (select_format st) st in
  plain_text_convert st = false → markdown_convert st = false →
  dispatch generate_content timing final st' = Some (Return texts) →
  convert_text (aggregate texts) (lit "latex") (lit "md") = Raise e →
  process_file generate_content convert_text timing final st
  = Some (set_output (aggregate texts) st', Raise e).
Proof.
  intros st' Hplain Hmarkdown Hdone Hfail.
  unfold process_file. fold st'. rewrite Hdone. unfold convert.
  assert (Hformat : format_selected (set_output (aggregate texts) st')
                    = lit "LaTeX").
  { subst st'. unfold select_format. simpl. by rewrite Hplain, Hmarkdown. }
  rewrite decide_True by done. unfold md_to_latex. simpl. by rewrite Hfail.
Qed.

(** X8. What a successful [process_file] leaves in the session does not
    depend on the output and the format stored before; in particular
    running it again on its own result changes nothing. *)
Theorem process_file_forgets_earlier_output
    (timing : nat → list future_ref) (final : list future_ref)
    (st st' : session_state) (earlier_output earlier_format : str) :
  process_file generate_content convert_text timing final st
  = Some (st', Return ()) →
  process_file generate_content convert_text timing final
    (set_output earlier_output (set_format_selected earlier_format st))
  = Some (st', Return ())
  ∧ process_file generate_content convert_text timing final st'
    = Some (st', Return ()).
Proof.
  assert (Hany : ∀ o f,
    process_file generate_content convert_text timing final st
    = Some (st', Return ()) →
    process_file generate_content convert_text timing final
      (set_output o (set_format_selected f st))
    = Some (st', Return ())).
  { intros o f. unfold process_file. rewrite !dispatch_spec. simpl.
    change (transcription generate_content
              (set_format_selected (select_format st)
                 (set_output o (set_format_selected f st))))
      with (transcription generate_content
              (set_format_selected (select_format st) st)).
    change (select_format (set_output o (set_format_selected f st)))
      with (select_format st).
    destruct (first_error_or_all _) as [texts|e]; [|done].
    unfold convert. simpl. case_decide; [|done].
    destruct (md_to_latex _ _); [|done]. done. }
  intros Hdone. split; [by apply Hany|].
  destruct (process_file_frame timing final st st' (Return ()) Hdone)
    as (Hformat & Hplain & Hmarkdown & Hlatex & Himages).
  rewrite <- (Hany (output st') (format_selected st') Hdone). f_equal.
  destruct st, st'. simpl in *. by subst.
Qed.

(** With no page [process_file] joins nothing. *)
Lemma dispatch_no_images timing final st :
  images st = [] →
  dispatch generate_content timing final st = Some (Return []).
Proof. intros Himages. rewrite dispatch_spec. by rewrite Himages. Qed.

(** X9. Called on a session without images, with one of the two buttons
    pressed, [process_file] stores the empty string as the output. *)
Theorem process_file_no_images
    (timing : nat → list future_ref) (final : list future_ref)
    (st : session_state) :
  images st = [] →
  plain_text_convert st || markdown_convert st = true →
  process_file generate_content convert_text timing final st
  = Some (set_output [] (set_format_selected (select_format st) st), Return ()).
Proof.
  intros Himages Hbutton.
  unfold process_file. rewrite dispatch_no_images by done.
  unfold convert, select_format. simpl.
  destruct (plain_text_convert st); [done|].
  destruct (markdown_convert st); done.
Qed.

End ProcessFacts.

(** ** The whole run of the script *)

Lemma first_error_or_all_Forall2 {A} (f : A → outcome str) (xs : list A)
    (texts : list str) :
  Forall2 (λ x text, f x = Return text) xs texts →
  first_error_or_all (f <$> xs) = Return texts.
Proof.
  intros Hall. apply first_error_or_all_success.
  induction Hall as [|x text xs texts Hx _ IH]; csimpl; [done|].
  by rewrite Hx, IH.
Qed.

Section ScriptFacts.

Variable pdf_page : Type.
Variable fitz_open : bytes → outcome (list pdf_page).
Variable render_png : pdf_page → outcome bytes.
Variable generate_content : str → image_part → outcome str.
Variable convert_text : str → str → str → outcome str.
Variable unicode_isalnum : char → bool.
Variable sort_values : list (char * nat) → list (char * nat).

Local Abbreviation run_script :=
  (script generate_content convert_text unicode_isalnum sort_values).
Local Abbreviation run_app :=
  (app fitz_open render_png generate_content convert_text unicode_isalnum
     sort_values).

(** The script from line 206 on leaves the buttons and the images alone. *)
Lemma script_frame timing final st st' r :
  run_script timing final st = Some (st', r) →
  images st' = images st ∧ latex_convert st' = latex_convert st
  ∧ plain_text_convert st' = plain_text_convert st
  ∧ markdown_convert st' = markdown_convert st.
Proof.
  unfold script. fold (requested st). destruct (requested st).
  - destruct (process_file _ _ _ _ _) as [[st1 r1]|] eqn:Hrun; [|done].
    apply process_file_frame in Hrun as (_ & ? & ? & ? & ?).
    destruct r1; intros [= <- <-]; done.
  - by intros [= <- <-].
Qed.

(** X10. What a run of the script leaves in the session and shows on the
    page does not depend on the order in which the Transcriber calls finish,
    whether the run succeeds or fails. *)
Theorem app_independent_of_timing
    (uploaded_file : option bytes) (plain markdown : bool)
    (timing timing' : nat → list future_ref) (final final' : list future_ref)
    (st : session_state) :
  run_app uploaded_file plain markdown timing final st
  = run_app uploaded_file plain markdown timing' final' st.
Proof.
  unfold app. destruct (upload _ _ _ _ _ _) as [st1 [[]|e]]; [|done].
  unfold script. by rewrite !process_file_cases.
Qed.

(** X11. The field [latex_convert] is only ever the empty string, and
    then a run of the script never reaches the LaTeX conversion: the run
    does not depend on the markup transform, and a conversion that was asked
    for selects plain text or Markdown. *)
Theorem script_never_converts_to_latex
    (convert_text' : str → str → str → outcome str)
    (timing : nat → list future_ref) (final : list future_ref)
    (st : session_state) :
  latex_convert st = [] →
  run_script timing final st
  = script generate_content convert_text' unicode_isalnum sort_values
      timing final st
  ∧ ∀ st' r, run_script timing final st = Some (st', r) →
             requested st = true →
             format_selected st' = lit "Plain Text"
             ∨ format_selected st' = lit "Markdown".
Proof.
  intros Hlatex.
  assert (Hformat : requested st = true →
                    select_format st = lit "Plain Text"
                    ∨ select_format st = lit "Markdown").
  { unfold requested, select_format. rewrite Hlatex. simpl.
    destruct (plain_text_convert st); [by left|].
    destruct (markdown_convert st); [by right|done]. }
  split.
  - unfold script. fold (requested st).
    destruct (requested st) eqn:Hasked; [|done].
    rewrite !process_file_cases. simpl.
    destruct (first_error_or_all _) as [texts|e]; [|done].
    rewrite !convert_not_latex; [done|..]; simpl;
      destruct (Hformat eq_refl) as [-> | ->]; discriminate.
  - intros st' r Hrun Hasked. unfold script in Hrun.
    fold (requested st) in Hrun. rewrite Hasked in Hrun.
    destruct (process_file _ _ _ _ _) as [[st1 r1]|] eqn:Hprocess; [|done].
    apply process_file_frame in Hprocess as [Hsel _].
    assert (st' = st1) as -> by (destruct r1; by injection Hrun as <-).
    rewrite Hsel. by apply Hformat.
Qed.

(** X12. A run in which no button is pressed transcribes nothing: it does
    not depend on the recognition service, and it leaves the output and the
    selected format of the session as they were. It completes, showing the
    stored output, unless a file was uploaded that cannot be rasterized, and
    then it ends with the error of the rasterizer and with no other. *)
Theorem app_without_button
    (generate_content' : str → image_part → outcome str)
    (uploaded_file : option bytes)
    (timing : nat → list future_ref) (final : list future_ref)
    (st : session_state) :
  latex_convert st = [] →
  run_app uploaded_file false false timing final st
  = app fitz_open render_png generate_content' convert_text unicode_isalnum
      sort_values uploaded_file false false timing final st
  ∧ ∃ st' r,
      run_app uploaded_file false false timing final st = Some (st', r)
      ∧ output st' = output st ∧ format_selected st' = format_selected st
      ∧ match r with
        | Return shown =>
            text_area shown = output st
            ∧ frequency_chart shown
              = (if truthy (output st)
                 then Some (generate_character_frequency unicode_isalnum
                              sort_values (output st))
                 else None)
            ∧ download_data shown = output st
            ∧ download_file_name shown = file_name st
            ∧ download_mime shown = mime st
            ∧ match uploaded_file with
              | None => images st' = images st
              | Some pdf_file =>
                  pdf_to_images fitz_open render_png pdf_file
                  = Return (images st')
              end
        | Raise e =>
            ∃ pdf_file,
              uploaded_file = Some pdf_file
              ∧ pdf_to_images fitz_open render_png pdf_file = Raise e
              ∧ images st' = images st
        end.
Proof.
  intros Hlatex. unfold app, upload.
  destruct uploaded_file as [pdf_file|];
    [destruct (pdf_to_images _ _ _) as [imgs|e] eqn:Hraster|];
    unfold script; simpl; rewrite ?Hlatex; simpl;
    (split; [done|]); eexists _, _; (split; [reflexivity|]); simpl.
  - by split_and!.
  - split_and!; [done..|]. by exists pdf_file.
  - by split_and!.
Qed.

(** X13. A run with an upload and the Markdown button pressed, in which
    the document opens, every page renders and every page is transcribed,
    stores the rendered pages as the images and shows the page texts joined
    by blank lines, offered for download as [converted_notes.md] with mime
    type [text/markdown]. *)
Theorem app_markdown_run
    (pdf_file : bytes) (doc : list pdf_page) (imgs : list bytes)
    (texts : list str)
    (timing : nat → list future_ref) (final : list future_ref)
    (st : session_state) :
  let st1 := set_format_selected (lit "Markdown")
               (set_images imgs (set_buttons false true st)) in
  fitz_open pdf_file = Return doc →
  Forall2 (λ page png, render_png page = Return png) doc imgs →
  imgs ≠ [] →
  Forall2 (λ image_data text,
             transcription generate_content st1 image_data = Return text)
          imgs texts →
  ∃ shown,
    run_app (Some pdf_file) false true timing final st
    = Some (set_output (aggregate texts) st1, Return shown)
    ∧ text_area shown = aggregate texts
    ∧ download_data shown = aggregate texts
    ∧ download_file_name shown = lit "converted_notes.md"
    ∧ download_mime shown = lit "text/markdown".
Proof.
  intros st1 Hopen Hrender Hpages Htexts.
  unfold app, upload.
  rewrite (pdf_to_images_mapM _ fitz_open render_png pdf_file doc Hopen).
  rewrite (proj2 (mapM_Return render_png doc imgs) Hrender).
  set (st0 := set_images imgs (set_buttons false true st)).
  assert (Hprocess : process_file generate_content convert_text timing final st0
                     = Some (set_output (aggregate texts) st1, Return ())).
  { rewrite process_file_cases. cbv zeta.
    change (set_format_selected (select_format st0) st0) with st1.
    change (images st0) with imgs.
    rewrite (first_error_or_all_Forall2 _ _ texts Htexts).
    by rewrite convert_not_latex. }
  unfold script. fold (requested st0).
  replace (requested st0) with true by by destruct imgs.
  rewrite Hprocess. eexists. split; [reflexivity|]. done.
Qed.

(** X14. The images of the session after a run are the earlier ones when
    nothing is uploaded, and the pages of the uploaded document rendered in
    page order otherwise; when the document cannot be rasterized the run
    ends with that error before anything is transcribed, with the images and
    the output as they were. *)
Theorem app_images
    (uploaded_file : option bytes) (plain markdown : bool)
    (timing : nat → list future_ref) (final : list future_ref)
    (st st' : session_state) (r : outcome page) :
  run_app uploaded_file plain markdown timing final st = Some (st', r) →
  match uploaded_file with
  | None => images st' = images st
  | Some pdf_file =>
      (∃ doc, fitz_open pdf_file = Return doc
              ∧ Forall2 (λ page png, render_png page = Return png)
                  doc (images st'))
      ∨ (∃ e, pdf_to_images fitz_open render_png pdf_file = Raise e
              ∧ r = Raise e ∧ images st' = images st
              ∧ output st' = output st)
  end.
Proof.
  unfold app, upload. destruct uploaded_file as [pdf_file|].
  - destruct (pdf_to_images _ _ _) as [imgs|e] eqn:Hraster.
    + intros Hrun. apply script_frame in Hrun as [-> _]. left.
      destruct (fitz_open pdf_file) as [doc|e] eqn:Hopen.
      * exists doc. split; [done|]. apply mapM_Return.
        by rewrite <- (pdf_to_images_mapM _ fitz_open render_png pdf_file doc).
      * unfold pdf_to_images in Hraster. by rewrite Hopen in Hraster.
    + intros [= <- <-]. right. by exists e.
  - intros Hrun. by apply script_frame in Hrun as [-> _].
Qed.

End ScriptFacts.

Lemma script_never_converts_to_latex_witness :
  script sample_service sample_pandoc (λ _, false) stable_sort
    none_early finish_2_0_1 three_pages
  = script sample_service (λ _ _ _, Raise (ConversionError "no pandoc"))
      (λ _, false) stable_sort none_early finish_2_0_1 three_pages.
Proof.
  apply (script_never_converts_to_latex sample_service sample_pandoc
           (λ _, false) stable_sort
           (λ _ _ _, Raise (ConversionError "no pandoc"))
           none_early finish_2_0_1 three_pages).
  reflexivity.
Defined.

Lemma app_without_button_witness :
  ∃ st' r,
    app sample_open sample_render sample_service sample_pandoc (λ _, false)
      stable_sort (Some [Byte.x30; Byte.x31]) false false
      none_early [] three_pages
    = Some (st', r)
    ∧ output st' = output three_pages
    ∧ format_selected st' = format_selected three_pages
    ∧ match r with
      | Return shown =>
          text_area shown = output three_pages
          ∧ frequency_chart shown
            = (if truthy (output three_pages)
               then Some (generate_character_frequency (λ _, false)
                            stable_sort (output three_pages))
               else None)
          ∧ download_data shown = output three_pages
          ∧ download_file_name shown = file_name three_pages
          ∧ download_mime shown = mime three_pages
          ∧ pdf_to_images sample_open sample_render [Byte.x30; Byte.x31]
            = Return (images st')
      | Raise e =>
          ∃ pdf_file,
            Some [Byte.x30; Byte.x31] = Some pdf_file
            ∧ pdf_to_images sample_open sample_render pdf_file = Raise e
            ∧ images st' = images three_pages
      end.
Proof.
  apply (app_without_button _ sample_open sample_render sample_service
           sample_pandoc (λ _, false) stable_sort sample_service
           (Some [Byte.x30; Byte.x31]) none_early [] three_pages).
  reflexivity.
Defined.

Lemma app_markdown_run_witness :
  ∃ shown,
    app sample_open sample_render sample_service sample_pandoc (λ _, false)
      stable_sort (Some [Byte.x30; Byte.x31]) false true
      none_early [1; 0] fresh_session
    = Some (set_output (aggregate [lit "page 0"; lit "page 1"])
              (set_format_selected (lit "Markdown")
                 (set_images [[Byte.x30]; [Byte.x31]]
                    (set_buttons false true fresh_session))),
            Return shown)
    ∧ text_area shown = aggregate [lit "page 0"; lit "page 1"]
    ∧ download_data shown = aggregate [lit "page 0"; lit "page 1"]
    ∧ download_file_name shown = lit "converted_notes.md"
    ∧ download_mime shown = lit "text/markdown".
Proof.
  apply (app_markdown_run _ sample_open sample_render sample_service
           sample_pandoc (λ _, false) stable_sort
           [Byte.x30; Byte.x31] [Byte.x30; Byte.x31]
           [[Byte.x30]; [Byte.x31]] [lit "page 0"; lit "page 1"]
           none_early [1; 0] fresh_session).
  - reflexivity.
  - repeat constructor.
  - discriminate.
  - repeat constructor.
Defined.

Lemma app_images_witness :
  ∃ st' r,
    app sample_open sample_render sample_service sample_pandoc (λ _, false)
      stable_sort None false false none_early [] three_pages
    = Some (st', r)
    ∧ images st' = images three_pages.
Proof.
  eexists _, _. split; [reflexivity|].
  eapply (app_images _ sample_open sample_render sample_service sample_pandoc
            (λ _, false) stable_sort None false false none_early []
            three_pages).
  reflexivity.
Defined.

(** ** Further properties of the frequency table and of the join *)

Section DictPermutation.
Context {K V : Type} `{EqDecision K}.

(** Looking a key up does not depend on the order of the rows. *)
Lemma dict_get_Permutation (d d' : dict K V) (k : K) (default : V) :
  NoDup (keys d) → d ≡ₚ d' → dict_get d k default = dict_get d' k default.
Proof.
  intros Hd Hperm.
  assert (Hd' : NoDup (keys d')) by (unfold keys; by rewrite <- Hperm).
  destruct (decide (k ∈ keys d)) as [Hin|Hnin].
  - remember (dict_get d k default) as v eqn:Hv.
    assert (Hrow : (k, v) ∈ d) by by apply (elem_of_dict d k v default).
    rewrite Hperm in Hrow.
    by apply (elem_of_dict d' k v default) in Hrow as [_ ->].
  - rewrite (dict_get_not_key d) by done.
    rewrite (dict_get_not_key d'); [done|].
    unfold keys in *. by rewrite <- Hperm.
Qed.
End DictPermutation.

Lemma occurrences_app c text1 text2 :
  occurrences c (text1 ++ text2) = occurrences c text1 + occurrences c text2.
Proof. unfold occurrences. by rewrite filter_app, length_app. Qed.

Section TableFacts.

Variable unicode_isalnum : char → bool.
Variable sort_values : list (char * nat) → list (char * nat).

Local Abbreviation alnum := (λ c, isalnum unicode_isalnum c = true).
Local Abbreviation table := (generate_character_frequency unicode_isalnum sort_values).

Lemma foldl_count_char_filter d (text : str) :
  foldl (count_char unicode_isalnum) d (filter alnum text)
  = foldl (count_char unicode_isalnum) d text.
Proof.
  revert d. induction text as [|x text IH]; intros d; [done|].
  rewrite filter_cons. cbn [foldl]. case_decide as Hx.
  - cbn [foldl]. apply IH.
  - rewrite IH. unfold count_char at 3.
    by destruct (isalnum unicode_isalnum x).
Qed.

(** X15. Characters that are not alphanumeric have no effect on the
    table: a text and the text with those characters taken out have the same
    table. *)
Theorem frequency_ignores_other_characters (text : str) :
  generate_character_frequency unicode_isalnum sort_values
    (filter (λ c, isalnum unicode_isalnum c = true) text)
  = generate_character_frequency unicode_isalnum sort_values text.
Proof.
  unfold generate_character_frequency. by rewrite foldl_count_char_filter.
Qed.

(** The count the table shows for a character, 0 when it has no row. *)
Lemma frequency_lookup (text : str) (c : char) :
  (∀ rows, sort_values rows ≡ₚ rows) →
  dict_get (table text) c 0
  = if isalnum unicode_isalnum c then occurrences c text else 0.
Proof.
  intros Hperm. unfold generate_character_frequency, items.
  rewrite <- (dict_get_Permutation _ _ c 0
                (count_keys_NoDup unicode_isalnum [] text (NoDup_nil_2))
                (symmetry (Hperm _))).
  by rewrite count_get.
Qed.

(** X16. The counts of a text made of two parts are the sums of the
    counts of the parts, a character without a row counting as 0. *)
Theorem frequency_of_concatenation (text1 text2 : str) (c : char) :
  (∀ rows, sort_values rows ≡ₚ rows) →
  dict_get (generate_character_frequency unicode_isalnum sort_values
              (text1 ++ text2)) c 0
  = dict_get (generate_character_frequency unicode_isalnum sort_values text1)
      c 0
    + dict_get (generate_character_frequency unicode_isalnum sort_values text2)
        c 0.
Proof.
  intros Hperm. rewrite !frequency_lookup by done.
  rewrite occurrences_app. by destruct (isalnum unicode_isalnum c).
Qed.

(** X17. The table has as many rows as the text has different
    alphanumeric characters. *)
Theorem frequency_table_length (text : str) :
  (∀ rows, sort_values rows ≡ₚ rows) →
  length (generate_character_frequency unicode_isalnum sort_values text)
  = length (remove_dups (filter (λ c, isalnum unicode_isalnum c = true) text)).
Proof.
  intros Hperm. unfold generate_character_frequency, items.
  rewrite Hperm, <- (length_fmap fst). apply Permutation_length.
  apply NoDup_Permutation.
  - apply (count_keys_NoDup unicode_isalnum [] text). constructor.
  - apply NoDup_remove_dups.
  - intros c. rewrite elem_of_remove_dups, list_elem_of_filter.
    change (c ∈ keys (foldl (count_char unicode_isalnum) [] text)
            ↔ isalnum unicode_isalnum c = true ∧ c ∈ text).
    rewrite count_keys, elem_of_nil. tauto.
Qed.

End TableFacts.

Lemma frequency_of_concatenation_witness :
  dict_get (generate_character_frequency (λ _, false) stable_sort
              (lit "ab, " ++ lit "ba!"))
    (chr "a") 0
  = 2.
Proof.
  apply (frequency_of_concatenation (λ _, false) stable_sort
           (lit "ab, ") (lit "ba!") (chr "a")).
  intros rows. apply stable_sort_sorts_descending.
Defined.

Lemma frequency_table_length_witness :
  length (generate_character_frequency (λ _, false) stable_sort
            (lit "aAbb1, a1"))
  = 4.
Proof.
  apply (frequency_table_length (λ _, false) stable_sort (lit "aAbb1, a1")).
  intros rows. apply stable_sort_sorts_descending.
Defined.

(** X18. Joining two lists of page texts, neither of them empty, is
    joining each and putting a blank line between the two: the joined text
    of a document is that of its first pages, a blank line, and that of the
    remaining pages. *)
Theorem aggregate_app (texts1 texts2 : list str) :
  texts1 ≠ [] → texts2 ≠ [] →
  aggregate (texts1 ++ texts2)
  = aggregate texts1 ++ [LF; LF] ++ aggregate texts2.
Proof.
  intros H1 H2. destruct texts1 as [|t1 texts1]; [done|].
  destruct texts2 as [|t2 texts2]; [done|].
  unfold aggregate, blank_line. simpl. rewrite !join_cons.
  rewrite map_app, concat_app. simpl. by rewrite <- !(assoc_L (++)).
Qed.

Lemma aggregate_app_witness :
  aggregate ([lit "one"; lit "two"] ++ [lit "three"])
  = aggregate [lit "one"; lit "two"] ++ [LF; LF] ++ aggregate [lit "three"].
Proof.
  apply (aggregate_app [lit "one"; lit "two"] [lit "three"]); discriminate.
Defined.

(** ** Sample runs of [process_file] *)

Lemma process_file_conversion_error_witness :
  process_file sample_service (λ _ _ _, Raise (ConversionError "no pandoc"))
    none_early [] latex_session
  = Some (set_output (aggregate [lit "page 0"])
            (set_format_selected (select_format latex_session) latex_session),
          Raise (ConversionError "no pandoc")).
Proof.
  apply (process_file_conversion_error sample_service
           (λ _ _ _, Raise (ConversionError "no pandoc"))
           none_early [] latex_session [lit "page 0"]
           (ConversionError "no pandoc"));
    reflexivity.
Defined.

Lemma process_file_forgets_earlier_output_witness :
  process_file sample_service sample_pandoc none_early finish_2_0_1
    (set_output (lit "something else")
       (set_format_selected (lit "LaTeX") three_pages))
  = process_file sample_service sample_pandoc none_early finish_2_0_1
      three_pages.
Proof.
  apply (process_file_forgets_earlier_output sample_service sample_pandoc
           none_early finish_2_0_1 three_pages
           (set_output (aggregate [lit "page 0"; lit "page 1"; lit "page 2"])
              (set_format_selected (lit "Markdown") three_pages))
           (lit "something else") (lit "LaTeX")).
  reflexivity.
Defined.

Lemma process_file_no_images_witness :
  process_file sample_service sample_pandoc none_early []
    (set_images [] three_pages)
  = Some (set_output []
            (set_format_selected (lit "Markdown") (set_images [] three_pages)),
          Return ()).
Proof.
  apply (process_file_no_images sample_service sample_pandoc none_early []
           (set_images [] three_pages));
    reflexivity.
Defined.

(** ** The table of a joined document *)

Section JoinedTable.

Variable unicode_isalnum : char → bool.
Variable sort_values : list (char * nat) → list (char * nat).

Lemma occurrences_blank_line c :
  isalnum unicode_isalnum c = true → occurrences c [LF; LF] = 0.
Proof.
  intros Hc. unfold occurrences.
  assert (Hne : LF ≠ c) by (intros <-; by vm_compute in Hc).
  by rewrite !filter_cons_False, filter_nil.
Qed.

Lemma occurrences_joined c (texts : list str) :
  isalnum unicode_isalnum c = true →
  occurrences c (concat (map (λ next, [LF; LF] ++ next) texts))
  = sum_list (occurrences c <$> texts).
Proof.
  intros Hc. induction texts as [|text texts IH]; [done|].
  rewrite map_cons, concat_cons, fmap_cons. cbn [sum_list_with].
  rewrite <- (assoc_L (++)), !occurrences_app, occurrences_blank_line by done.
  by rewrite IH.
Qed.

(** X19. The count the table of the joined document shows for a character
    is the sum of the counts in the tables of the pages: the blank lines
    between the pages add nothing. *)
Theorem frequency_of_joined_pages (texts : list str) (c : char) :
  (∀ rows, sort_values rows ≡ₚ rows) →
  dict_get (generate_character_frequency unicode_isalnum sort_values
              (aggregate texts)) c 0
  = sum_list ((λ text, dict_get (generate_character_frequency unicode_isalnum
                                   sort_values text) c 0) <$> texts).
Proof.
  intros Hperm. rewrite frequency_lookup by done.
  destruct (isalnum unicode_isalnum c) eqn:Hc.
  - destruct texts as [|text texts]; [done|].
    unfold aggregate, blank_line. rewrite join_cons, occurrences_app.
    rewrite occurrences_joined by done. csimpl.
    rewrite frequency_lookup, Hc by done. f_equal.
    f_equal. apply list_fmap_ext. intros _ text' _.
    by rewrite frequency_lookup, Hc.
  - induction texts as [|text texts IH]; csimpl; [done|].
    by rewrite frequency_lookup, Hc, <- IH.
Qed.

End JoinedTable.

Lemma frequency_of_joined_pages_witness :
  dict_get (generate_character_frequency (λ _, false) stable_sort
              (aggregate [lit "page 0"; lit "page 1"; lit "page 2"]))
    (chr "p") 0
  = 3.
Proof.
  apply (frequency_of_joined_pages (λ _, false) stable_sort
           [lit "page 0"; lit "page 1"; lit "page 2"] (chr "p")).
  intros rows. apply stable_sort_sorts_descending.
Defined.
